(** * Tic-tac-toe room server: a shallow embedding of [server.js]

    The development follows the layout of the source file:
    the game helpers ([checkWinner]), the room helpers ([resetRoom],
    [leaveRoom]), the socket handlers ([joinRoom], [makeMove], [resetGame],
    [playerReady], [chatMessage], [disconnect]), the inactivity timer
    callback and the periodic cleanup.  The two process-wide maps [rooms]
    and [playerSockets] are finite maps keyed by strings; every handler is a
    function from the server state to the new state and the list of events
    it emitted, in emission order. *)

From Stdlib Require Import ZArith String Ascii List Bool Lia.
From stdpp Require Import base option list gmap strings fin_maps.

Open Scope string_scope.
Open Scope list_scope.
Open Scope Z_scope.

(** ** Data model *)

(** [gameStatus] is only ever assigned one of three string literals. *)
Inductive GameStatus := waiting | active | finished.

#[global] Instance GameStatus_eq_dec : EqDecision GameStatus.
Proof. solve_decision. Defined.

(** The [gameState] object of a room.  [winner] is [null] or a string;
    [moves] is a JavaScript number that is only ever incremented. *)
Record GameState := mkGameState {
  board : list string;
  currentTurn : string;
  gameStatus : GameStatus;
  winner : option string;
  moves : Z
}.

(** A member of a room.  [pid] is the field [id] (the socket id). *)
Record Player := mkPlayer {
  pid : string;
  name : string;
  avatar : string;
  symbol : string;
  joinedAt : Z;
  ready : bool
}.

(** A room.  [rid] is the field [id]; [timeout] is [null] or the handle
    returned by [setTimeout]. *)
Record Room := mkRoom {
  rid : string;
  players : list Player;
  gameState : GameState;
  created : Z;
  private : bool;
  timeout : option nat
}.

#[global] Instance GameState_eq_dec : EqDecision GameState.
Proof. solve_decision. Defined.
#[global] Instance Player_eq_dec : EqDecision Player.
Proof. solve_decision. Defined.
#[global] Instance Room_eq_dec : EqDecision Room.
Proof. solve_decision. Defined.

(** ** Game helpers *)

(** JavaScript truthiness of a string: every string but the empty one. *)
Definition truthy (s : string) : bool := negb (bool_decide (s = "")).

(** [Array(9).fill('')] *)
Definition emptyBoard : list string := replicate 9 "".

Definition winPatterns : list (nat * nat * nat) :=
  [ (0, 1, 2); (3, 4, 5); (6, 7, 8);
    (0, 3, 6); (1, 4, 7); (2, 5, 8);
    (0, 4, 8); (2, 4, 6) ]%nat.

(** The test of one pattern in the loop of [checkWinner]:
    [board[a] && board[a] === board[b] && board[a] === board[c]].
    A cell outside the array reads [undefined], which is falsy and equal to
    no string. *)
Definition lineWinner (b : list string) (pattern : nat * nat * nat)
  : option string :=
  let '(i, j, k) := pattern in
  match b !! i with
  | Some x =>
      if truthy x && bool_decide (b !! j = Some x)
                  && bool_decide (b !! k = Some x)
      then Some x else None
  | None => None
  end.

(** The [for] loop: the first pattern that matches decides. *)
Fixpoint firstWinner (b : list string) (patterns : list (nat * nat * nat))
  : option string :=
  match patterns with
  | [] => None
  | p :: rest =>
      match lineWinner b p with
      | Some x => Some x
      | None => firstWinner b rest
      end
  end.

(** [checkWinner(board)]: a symbol, ['tie'] or [null]. *)
Definition checkWinner (b : list string) : option string :=
  match firstWinner b winPatterns with
  | Some x => Some x
  | None =>
      if forallb (λ cell, negb (bool_decide (cell = ""))) b
      then Some "tie" else None
  end.

(** [gameState.board[index]] for an integer [index]: a negative or too
    large index reads [undefined]. *)
Definition cellAt (b : list string) (index : Z) : option string :=
  if bool_decide (0 ≤ index) then b !! Z.to_nat index else None.

(** The outcome of the validation and move part of the [makeMove] handler
    (from the comment [Validate move] down to [Switch turns]), which only
    reads and writes the room's [gameState]. *)
Inductive MoveResult :=
| MoveError (msg : string)
| MoveDecided (gs : GameState) (w : string)
| MoveContinues (gs : GameState).

Definition setCell (gs : GameState) (index : Z) (sym : string) : GameState :=
  mkGameState (<[Z.to_nat index := sym]> (board gs)) (currentTurn gs)
              (gameStatus gs) (winner gs) (moves gs + 1).

Definition finish (gs : GameState) (w : string) : GameState :=
  mkGameState (board gs) (currentTurn gs) finished (Some w) (moves gs).

Definition switchTurn (gs : GameState) : GameState :=
  mkGameState (board gs)
              (if bool_decide (currentTurn gs = "X") then "O" else "X")
              (gameStatus gs) (winner gs) (moves gs).

Definition applyMove (gs : GameState) (index : Z) (sym : string)
  : MoveResult :=
  if bool_decide (gameStatus gs ≠ active) then
    MoveError "Game is not active"
  else if bool_decide (currentTurn gs ≠ sym) then
    MoveError "Not your turn"
  else if bool_decide (cellAt (board gs) index ≠ Some "") then
    MoveError "Cell already occupied"
  else
    let gs1 := setCell gs index sym in
    match checkWinner (board gs1) with
    | Some w =>
        if truthy w then MoveDecided (finish gs1 w) w
        else MoveContinues (switchTurn gs1)
    | None => MoveContinues (switchTurn gs1)
    end.

(** ** Events and server state *)

(** The outbound events, with the payload the source builds at the moment
    of the [emit] call. *)
Inductive Event :=
| EvError (msg : string)
| EvRoomFull (msg : string)
| EvSymbolTaken (msg : string)
| EvRoomUpdate (ps : list Player) (gs : GameState) (roomId : string)
| EvGameStart (ps : list Player) (gs : GameState)
| EvJoinSuccess (roomId : string) (player : Player) (inviteUrl : string)
| EvMoveUpdate (index : Z) (sym : string) (gs : GameState) (player : string)
| EvGameEnd (winnerName : option string) (gs : GameState) (kind : string)
| EvGameReset (gs : GameState) (resetBy : string)
| EvPlayerReadyUpdate (playerId : string) (isReady : bool) (ps : list Player)
| EvChatMessage (msgId player avatarUrl message : string) (timestamp : Z)
| EvPlayerLeft (gs : GameState) (remainingPlayers : list Player)
| EvGameTimeout (msg : string).

(** [socket.emit(..)] reaches the originating connection only;
    [io.to(room).emit(..)] is handed to the transport for every socket of
    the group [room].  Who is in a group ([socket.join], [socket.leave],
    and the transport taking a closed connection out of its groups) is the
    transport's own state and is not modelled. *)
Inductive Output :=
| ToSocket (sid : string) (e : Event)
| ToRoom (room : string) (e : Event).

#[global] Instance Event_eq_dec : EqDecision Event.
Proof. solve_decision. Defined.
#[global] Instance Output_eq_dec : EqDecision Output.
Proof. solve_decision. Defined.

(** The mutable state of the process: the two module-level maps, and the
    timers created by [setTimeout] that have neither fired nor been
    cleared.  A pending timer remembers the room id its callback closes
    over; handles are numbered in creation order. *)
Record Server := mkServer {
  rooms : gmap string Room;
  playerSockets : gmap string string;
  timers : gmap nat string;
  nextTimer : nat
}.

Definition initial : Server := mkServer ∅ ∅ ∅ 0%nat.

(** The part of [config.json] the handlers read. *)
Record Config := mkConfig {
  maxPlayersPerRoom : nat
}.

(** Modelled from the spec: [config.json] is not among the sources; the
    spec fixes the room capacity at 2. *)
Definition config : Config := mkConfig 2.

Definition setRooms (f : gmap string Room → gmap string Room) (st : Server)
  : Server :=
  mkServer (f (rooms st)) (playerSockets st) (timers st) (nextTimer st).

Definition setPlayerSockets (f : gmap string string → gmap string string)
  (st : Server) : Server :=
  mkServer (rooms st) (f (playerSockets st)) (timers st) (nextTimer st).

Definition clearTimeout (h : nat) (st : Server) : Server :=
  mkServer (rooms st) (playerSockets st) (delete h (timers st)) (nextTimer st).

(** [if (roomData.timeout) clearTimeout(roomData.timeout)] *)
Definition clearRoomTimeout (roomData : Room) (st : Server) : Server :=
  match timeout roomData with
  | Some h => clearTimeout h st
  | None => st
  end.

(** [setTimeout(callback, config.gameTimeout)] for the callback of
    [joinRoom], which closes over [room]. *)
Definition setTimeout (room : string) (st : Server) : Server * nat :=
  (mkServer (rooms st) (playerSockets st)
            (<[nextTimer st := room]> (timers st)) (S (nextTimer st)),
   nextTimer st).

Definition withPlayers (ps : list Player) (r : Room) : Room :=
  mkRoom (rid r) ps (gameState r) (created r) (private r) (timeout r).

Definition withGameState (gs : GameState) (r : Room) : Room :=
  mkRoom (rid r) (players r) gs (created r) (private r) (timeout r).

Definition withTimeout (t : option nat) (r : Room) : Room :=
  mkRoom (rid r) (players r) (gameState r) (created r) (private r) t.

Definition withStatus (s : GameStatus) (gs : GameState) : GameState :=
  mkGameState (board gs) (currentTurn gs) s (winner gs) (moves gs).

Definition withReady (b : bool) (p : Player) : Player :=
  mkPlayer (pid p) (name p) (avatar p) (symbol p) (joinedAt p) b.

(** ** Room helpers *)

Definition freshGameState (s : GameStatus) : GameState :=
  mkGameState emptyBoard "X" s None 0.

(** [resetRoom(roomId)] *)
Definition resetRoom (roomId : string) (st : Server) : Server :=
  match rooms st !! roomId with
  | None => st
  | Some roomData =>
      let st1 := clearRoomTimeout roomData st in
      let gs :=
        freshGameState
          (if bool_decide (length (players roomData) = 2%nat)
           then active else waiting) in
      let roomData1 :=
        mkRoom (rid roomData) (withReady false <$> players roomData) gs
               (created roomData) (private roomData) None in
      setRooms (insert roomId roomData1) st1
  end.

(** [leaveRoom(socketId, roomId)] *)
Definition leaveRoom (socketId roomId : string) (st : Server)
  : Server * list Output :=
  match rooms st !! roomId with
  | None => (st, [])
  | Some roomData =>
      let rest := filter (λ p, pid p ≠ socketId) (players roomData) in
      let roomData1 := withPlayers rest roomData in
      if bool_decide (length rest = 0%nat) then
        (setRooms (delete roomId) (clearRoomTimeout roomData1 st), [])
      else if bool_decide (gameStatus (gameState roomData1) = active) then
        let gs := withStatus finished (gameState roomData1) in
        (setRooms (insert roomId (withGameState gs roomData1)) st,
         [ToRoom roomId (EvPlayerLeft gs rest);
          ToRoom roomId (EvRoomUpdate rest gs roomId)])
      else
        (setRooms (insert roomId roomData1) st,
         [ToRoom roomId (EvRoomUpdate rest (gameState roomData1) roomId)])
  end.

(** ** Strings *)

(** A JavaScript string is a sequence of UTF-16 code units.  A [string]
    here holds the UTF-8 bytes of that text: one to three bytes for a code
    unit outside a surrogate pair (an unpaired surrogate takes its three
    bytes like any other unit), four bytes for a surrogate pair.  Two
    JavaScript strings are equal exactly when their bytes are. *)

(** The UTF-16 code units a byte stands for: a continuation byte none, the
    lead byte of a four-byte sequence the two units of a surrogate pair,
    every other byte one. *)
Definition units (c : ascii) : nat :=
  let n := nat_of_ascii c in
  if (n <? 128)%nat then 1%nat
  else if (n <? 192)%nat then 0%nat
  else if (n <? 240)%nat then 1%nat
  else 2%nat.

(** The [length] property of a string. *)
Fixpoint jsLength (s : string) : nat :=
  match s with
  | EmptyString => 0%nat
  | String c rest => (units c + jsLength rest)%nat
  end.

(** The white space and line terminators [String.prototype.trim] strips,
    by the length of their UTF-8 form.  One byte: tab, line feed, vertical
    tab, form feed, carriage return, space. *)
Definition isSpace1 (c : ascii) : bool :=
  let n := nat_of_ascii c in
  (n =? 32)%nat || ((9 <=? n)%nat && (n <=? 13)%nat).

(** Two bytes: U+00A0. *)
Definition isSpace2 (c1 c2 : ascii) : bool :=
  (nat_of_ascii c1 =? 194)%nat && (nat_of_ascii c2 =? 160)%nat.

(** Three bytes: U+1680, U+2000 to U+200A, U+2028, U+2029, U+202F, U+205F,
    U+3000 and U+FEFF. *)
Definition isSpace3 (c1 c2 c3 : ascii) : bool :=
  let a := nat_of_ascii c1 in
  let b := nat_of_ascii c2 in
  let c := nat_of_ascii c3 in
  ((a =? 225) && (b =? 154) && (c =? 128))%nat
  || ((a =? 226) && (b =? 128)
      && (((128 <=? c) && (c <=? 138)) || (c =? 168) || (c =? 169)
          || (c =? 175)))%nat
  || ((a =? 226) && (b =? 129) && (c =? 159))%nat
  || ((a =? 227) && (b =? 128) && (c =? 128))%nat
  || ((a =? 239) && (b =? 187) && (c =? 191))%nat.

(** Dropping the white space at the start of a string. *)
Fixpoint trimStart (s : string) : string :=
  match s with
  | EmptyString => EmptyString
  | String c1 r1 =>
      if isSpace1 c1 then trimStart r1
      else
        match r1 with
        | EmptyString => s
        | String c2 r2 =>
            if isSpace2 c1 c2 then trimStart r2
            else
              match r2 with
              | EmptyString => s
              | String c3 r3 =>
                  if isSpace3 c1 c2 c3 then trimStart r3 else s
              end
        end
  end.

(** The same on the reversed bytes, for the white space at the end. *)
Fixpoint trimStartRev (s : string) : string :=
  match s with
  | EmptyString => EmptyString
  | String c1 r1 =>
      if isSpace1 c1 then trimStartRev r1
      else
        match r1 with
        | EmptyString => s
        | String c2 r2 =>
            if isSpace2 c2 c1 then trimStartRev r2
            else
              match r2 with
              | EmptyString => s
              | String c3 r3 =>
                  if isSpace3 c3 c2 c1 then trimStartRev r3 else s
              end
        end
  end.

(** [String.prototype.trim] *)
Definition trim (s : string) : string :=
  String.rev (trimStartRev (String.rev (trimStart s))).

(** ** Socket handlers *)

(** What the handler can be given as [name].  The field is the one the
    handler calls a string method on, so its type decides the path taken: a
    string, or a value that is truthy and not a string (a number, [true], an
    array, an object), of which the handler only sees whether its [length]
    property compares greater than 20. *)
Inductive NameValue :=
| NameString (s : string)
| NameOther (lengthOver20 : bool).

(** The payload of [joinRoom].  A field the client left out, or gave a
    falsy value that is not a string, is [None].  [room], [avatar] and
    [symbol] are taken to be strings: the handler only tests them, compares
    them and stores them, which it does alike for any value.  Of
    [isPrivate] the code only ever tests the truthiness, which is what the
    boolean stands for; [None] is [undefined], replaced by the default
    [false]. *)
Record JoinRoomPayload := mkJoin {
  jr_room : option string;
  jr_name : option NameValue;
  jr_avatar : option string;
  jr_symbol : option string;
  jr_isPrivate : option bool
}.

(** [!name] is false *)
Definition presentName (o : option NameValue) : bool :=
  match o with
  | Some (NameString s) => truthy s
  | Some (NameOther _) => true
  | None => false
  end.

(** [name.length > 20] *)
Definition nameTooLong (nm : NameValue) : bool :=
  match nm with
  | NameString s => bool_decide (20 < jsLength s)%nat
  | NameOther over => over
  end.

(** Truthiness of an optional string field: present and not empty. *)
Definition present (o : option string) : bool :=
  match o with
  | Some s => truthy s
  | None => false
  end.

Definition defaultAvatar : string :=
  "https://cdn-icons-png.flaticon.com/512/149/149071.png".

(** What evaluating an expression of a handler can throw. *)
Inductive Thrown :=
| ReferenceError (ident : string)
| TypeError (msg : string).

(** [name.trim()]: only a string has the method. *)
Definition trimName (nm : NameValue) : Thrown + string :=
  match nm with
  | NameString s => inr (trim s)
  | NameOther _ => inl (TypeError "name.trim is not a function")
  end.

(** The identifier [req] in the body of the [joinRoom] handler.  The
    handler is a closure of the [io.on('connection', (socket) => ..)]
    callback; the module declares no [req], the only bindings of that name
    are the parameters of the HTTP route callbacks, and Node has no such
    global.  Evaluating it throws a [ReferenceError]; had it been bound, it
    would give the value of the [origin] header. *)
Definition req_headers_origin : Thrown + option string :=
  inl (ReferenceError "req").

(** The object literal passed to [socket.emit('joinSuccess', ..)],
    evaluated before the call. *)
Definition joinSuccessPayload (room : string) (player : Player)
  : Thrown + Event :=
  match req_headers_origin with
  | inl e => inl e
  | inr origin =>
      let base :=
        if present origin then default "" origin
        else "http://localhost:3000" in
      inr (EvJoinSuccess room player
             (String.append base (String.append "/game.html?room=" room)))
  end.

(** [Leave previous room if any] *)
Definition leavePrevious (sid : string) (st : Server)
  : Server * list Output :=
  match playerSockets st !! sid with
  | Some prevRoom =>
      if truthy prevRoom then leaveRoom sid prevRoom st else (st, [])
  | None => (st, [])
  end.

(** [Initialize room if it doesn't exist], followed by
    [const roomData = rooms.get(room)]. *)
Definition ensureRoom (room : string) (isPrivate : bool) (now : Z)
  (st : Server) : Server * Room :=
  match rooms st !! room with
  | Some roomData => (st, roomData)
  | None =>
      let roomData :=
        mkRoom room [] (freshGameState waiting) now isPrivate None in
      (setRooms (insert room roomData) st, roomData)
  end.

(** [Start game if we have 2 players]: the state and the room object after
    the block, and what it emitted. *)
Definition startGame (room : string) (roomData : Room) (st : Server)
  : Server * list Output :=
  if bool_decide (length (players roomData) = 2%nat) then
    let gs :=
      mkGameState (board (gameState roomData)) "X" active
                  (winner (gameState roomData))
                  (moves (gameState roomData)) in
    let '(st1, h) := setTimeout room st in
    let roomData1 := withTimeout (Some h) (withGameState gs roomData) in
    (setRooms (insert room roomData1) st1,
     [ToRoom room (EvGameStart (players roomData) gs)])
  else
    (setRooms (insert room roomData) st, []).

Section Handlers.

Variable cfg : Config.

(** [socket.on('joinRoom', ..)] for the connection [sid]; [now] and
    [joined] are the two clock values read by [Date.now()], for [created]
    and for [joinedAt]. *)
Definition joinRoom (now joined : Z) (sid : string) (rq : JoinRoomPayload)
  (st : Server) : Server * list Output :=
  if negb (present (jr_room rq) && presentName (jr_name rq)
           && present (jr_symbol rq)) then
    (st, [ToSocket sid (EvError "Missing required fields")])
  else
    let room := default "" (jr_room rq) in
    let nm := default (NameString "") (jr_name rq) in
    let sym := default "" (jr_symbol rq) in
    if nameTooLong nm || bool_decide (10 < jsLength room)%nat then
      (st, [ToSocket sid (EvError "Name or room ID too long")])
    else
      let '(st1, out1) := leavePrevious sid st in
      let '(st2, roomData) :=
        ensureRoom room (default false (jr_isPrivate rq)) now st1 in
      if bool_decide (maxPlayersPerRoom cfg ≤ length (players roomData))%nat
      then (st2, out1 ++ [ToSocket sid (EvRoomFull "Room is full")])
      else if existsb (λ p, bool_decide (symbol p = sym)) (players roomData)
      then (st2, out1 ++ [ToSocket sid (EvSymbolTaken "Symbol already taken")])
      else
        let st3 := setPlayerSockets (insert sid room) st2 in
        match trimName nm with
        | inl _ =>
            (* catch (error): thrown while the player object is built *)
            (st3, out1 ++ [ToSocket sid (EvError "Failed to join room")])
        | inr trimmed =>
            let player :=
              mkPlayer sid trimmed
                       (if present (jr_avatar rq)
                        then default "" (jr_avatar rq) else defaultAvatar)
                       sym joined false in
            let roomData1 :=
              withPlayers (players roomData ++ [player]) roomData in
            let out2 :=
              [ToRoom room (EvRoomUpdate (players roomData1)
                                         (gameState roomData1) room)] in
            let '(st4, out3) := startGame room roomData1 st3 in
            match joinSuccessPayload room player with
            | inr ev => (st4, out1 ++ out2 ++ out3 ++ [ToSocket sid ev])
            | inl _ =>
                (* catch (error) *)
                (st4, out1 ++ out2 ++ out3
                      ++ [ToSocket sid (EvError "Failed to join room")])
            end
        end.

(** [roomData.players.find(p => p.id === socket.id)]: the first match and
    its position. *)
Definition findPlayer (sid : string) (ps : list Player)
  : option (nat * Player) :=
  list_find (λ p, pid p = sid) ps.

(** [socket.on('makeMove', ..)] *)
Definition makeMove (sid room : string) (index : Z) (sym : string)
  (st : Server) : Server * list Output :=
  match rooms st !! room with
  | None => (st, [ToSocket sid (EvError "Room not found")])
  | Some roomData =>
      match findPlayer sid (players roomData) with
      | None => (st, [ToSocket sid (EvError "Player not in room")])
      | Some (_, player) =>
          match applyMove (gameState roomData) index sym with
          | MoveError msg => (st, [ToSocket sid (EvError msg)])
          | MoveDecided gs w =>
              let st1 := clearRoomTimeout roomData st in
              let roomData1 := withTimeout None (withGameState gs roomData) in
              (setRooms (insert room roomData1) st1,
               [ToRoom room
                  (EvGameEnd
                     (if bool_decide (w = "tie") then None
                      else Some (name player))
                     gs
                     (if bool_decide (w = "tie") then "tie" else "win"))])
          | MoveContinues gs =>
              (setRooms (insert room (withGameState gs roomData)) st,
               [ToRoom room (EvMoveUpdate index sym gs (name player))])
          end
      end
  end.

(** [socket.on('resetGame', ..)] *)
Definition resetGame (sid room : string) (st : Server)
  : Server * list Output :=
  match rooms st !! room with
  | None => (st, [])
  | Some roomData =>
      match findPlayer sid (players roomData) with
      | None => (st, [])
      | Some (_, player) =>
          let st1 := resetRoom room st in
          match rooms st1 !! room with
          | Some roomData1 =>
              (st1, [ToRoom room (EvGameReset (gameState roomData1)
                                              (name player))])
          | None => (st1, [])
          end
      end
  end.

(** [socket.on('playerReady', ..)] *)
Definition playerReady (sid room : string) (st : Server)
  : Server * list Output :=
  match rooms st !! room with
  | None => (st, [])
  | Some roomData =>
      match findPlayer sid (players roomData) with
      | Some (i, player) =>
          let player1 := withReady (negb (ready player)) player in
          let ps := <[i := player1]> (players roomData) in
          (setRooms (insert room (withPlayers ps roomData)) st,
           [ToRoom room (EvPlayerReadyUpdate sid (ready player1) ps)])
      | None => (st, [])
      end
  end.

(** [socket.on('chatMessage', ..)]; [uuid] is the value of [uuidv4()]. *)
Definition chatMessage (now : Z) (uuid : string) (sid room message : string)
  (st : Server) : Server * list Output :=
  match rooms st !! room with
  | None => (st, [])
  | Some roomData =>
      match findPlayer sid (players roomData) with
      | None => (st, [])
      | Some (_, player) =>
          if bool_decide (100 < jsLength (trim message))%nat then
            (st, [])
          else
            (st, [ToRoom room (EvChatMessage uuid (name player)
                                 (avatar player) (trim message) now)])
      end
  end.

(** [socket.on('disconnect', ..)] *)
Definition disconnect (sid : string) (st : Server) : Server * list Output :=
  match playerSockets st !! sid with
  | Some room =>
      if truthy room then
        let '(st1, out) := leaveRoom sid room st in
        (setPlayerSockets (delete sid) st1, out)
      else (st, [])
  | None => (st, [])
  end.

(** The callback armed by [joinRoom], when the pending timer [h] fires. *)
Definition gameTimeout (h : nat) (st : Server) : Server * list Output :=
  match timers st !! h with
  | None => (st, [])
  | Some room =>
      (resetRoom room (clearTimeout h st),
       [ToRoom room (EvGameTimeout "Game timed out due to inactivity")])
  end.

(** The [setInterval] callback: rooms older than 30 minutes and without
    players are deleted, their timers cleared. *)
Definition inactiveThreshold : Z := 30 * 60 * 1000.

Definition isStale (now : Z) (r : Room) : bool :=
  bool_decide (inactiveThreshold < now - created r)
  && bool_decide (length (players r) = 0%nat).

Definition cleanup (now : Z) (st : Server) : Server :=
  let stale := filter (λ kr : string * Room, isStale now kr.2) (rooms st) in
  let handles := omap timeout (snd <$> map_to_list stale) in
  mkServer (filter (λ kr : string * Room, ¬ isStale now kr.2) (rooms st))
           (playerSockets st)
           (foldr delete (timers st) handles)
           (nextTimer st).

(** ** The server as a transition system *)

Inductive Input :=
| InJoinRoom (now joined : Z) (sid : string) (rq : JoinRoomPayload)
| InMakeMove (sid room : string) (index : Z) (sym : string)
| InResetGame (sid room : string)
| InPlayerReady (sid room : string)
| InChatMessage (now : Z) (uuid sid room message : string)
| InDisconnect (sid : string)
| InTimeout (h : nat)
| InCleanup (now : Z).

Definition handle (i : Input) (st : Server) : Server * list Output :=
  match i with
  | InJoinRoom now joined sid rq => joinRoom now joined sid rq st
  | InMakeMove sid room index sym => makeMove sid room index sym st
  | InResetGame sid room => resetGame sid room st
  | InPlayerReady sid room => playerReady sid room st
  | InChatMessage now uuid sid room message =>
      chatMessage now uuid sid room message st
  | InDisconnect sid => disconnect sid st
  | InTimeout h => gameTimeout h st
  | InCleanup now => (cleanup now st, [])
  end.

(** Handling a sequence of inputs, first to last, collecting the events. *)
Fixpoint run (inputs : list Input) (st : Server) : Server * list Output :=
  match inputs with
  | [] => (st, [])
  | i :: rest =>
      let '(st1, out1) := handle i st in
      let '(st2, out2) := run rest st1 in
      (st2, out1 ++ out2)
  end.

Inductive reachable : Server → Prop :=
| reachable_initial : reachable initial
| reachable_handle i st : reachable st → reachable (handle i st).1.

End Handlers.

(** ** Notions used in the statements *)

(** The three cells of a pattern all hold [s]. *)
Definition line (s : string) (b : list string) (p : nat * nat * nat) : Prop :=
  b !! p.1.1 = Some s ∧ b !! p.1.2 = Some s ∧ b !! p.2 = Some s.

(** [s] is a mark and fills one of the eight lines of [b]. *)
Definition wins (s : string) (b : list string) : Prop :=
  s ≠ "" ∧ ∃ p, p ∈ winPatterns ∧ line s b p.

(** The game states reached from a newly started game by moves the
    handler accepts. *)
Inductive legal_play : GameState → Prop :=
| legal_start : legal_play (freshGameState active)
| legal_decided gs index sym gs' w :
    legal_play gs → applyMove gs index sym = MoveDecided gs' w →
    legal_play gs'
| legal_continues gs index sym gs' :
    legal_play gs → applyMove gs index sym = MoveContinues gs' →
    legal_play gs'.

(** The marks of the game, and what a cell of the board can hold. *)
Definition isMark (s : string) : Prop := s = "X" ∨ s = "O".
Definition isCell (s : string) : Prop := s = "" ∨ isMark s.

Definition game_ok (gs : GameState) : Prop :=
  isMark (currentTurn gs) ∧ Forall isCell (board gs)
  ∧ length (board gs) = 9%nat.

(** What holds of every room of a reachable server. *)
Record room_ok (cfg : Config) (r : Room) : Prop := mkRoomOk {
  ok_capacity : (length (players r) ≤ maxPlayersPerRoom cfg)%nat;
  ok_symbols : NoDup (symbol <$> players r);
  ok_active :
    gameStatus (gameState r) = active →
    length (players r) = 2%nat ∨ (2 < maxPlayersPerRoom cfg)%nat;
  ok_game : game_ok (gameState r)
}.

Definition server_ok (cfg : Config) (st : Server) : Prop :=
  ∀ room r, rooms st !! room = Some r → room_ok cfg r.

(** The connection an inbound event comes from, if it comes from one. *)
Definition origin (i : Input) : option string :=
  match i with
  | InJoinRoom _ _ sid _ | InMakeMove sid _ _ _ | InResetGame sid _
  | InPlayerReady sid _ | InChatMessage _ _ sid _ _ | InDisconnect sid =>
      Some sid
  | InTimeout _ | InCleanup _ => None
  end.

(** The ways a handler turns a request down at one of its guards, under
    the names the error kinds have in the design, with the events the
    handler answers with.  A move on an index outside the board is turned
    down by the guard on the cell. *)
Inductive ErrorKind :=
| ValidationError | RoomFull | SymbolTaken | RoomNotFound | NotAMember
| InvalidState | WrongTurn | CellOccupied | MessageTooLong.

Definition member (sid : string) (r : Room) : Prop :=
  ∃ p, p ∈ players r ∧ pid p = sid.

Inductive Rejected (cfg : Config) (st : Server)
  : Input → ErrorKind → list Output → Prop :=
| rej_missing now joined sid rq :
    present (jr_room rq) && presentName (jr_name rq)
    && present (jr_symbol rq) = false →
    Rejected cfg st (InJoinRoom now joined sid rq) ValidationError
             [ToSocket sid (EvError "Missing required fields")]
| rej_too_long now joined sid room nm sym av pr :
    room ≠ "" → presentName (Some nm) = true → sym ≠ "" →
    nameTooLong nm = true ∨ (10 < jsLength room)%nat →
    Rejected cfg st
             (InJoinRoom now joined sid
                         (mkJoin (Some room) (Some nm) av (Some sym) pr))
             ValidationError
             [ToSocket sid (EvError "Name or room ID too long")]
| rej_room_full now joined sid room nm sym av pr r :
    room ≠ "" → presentName (Some nm) = true → sym ≠ "" →
    nameTooLong nm = false → (jsLength room ≤ 10)%nat →
    playerSockets st !! sid = None →
    rooms st !! room = Some r →
    (maxPlayersPerRoom cfg ≤ length (players r))%nat →
    Rejected cfg st
             (InJoinRoom now joined sid
                         (mkJoin (Some room) (Some nm) av (Some sym) pr))
             RoomFull
             [ToSocket sid (EvRoomFull "Room is full")]
| rej_symbol_taken now joined sid room nm sym av pr r p :
    room ≠ "" → presentName (Some nm) = true → sym ≠ "" →
    nameTooLong nm = false → (jsLength room ≤ 10)%nat →
    playerSockets st !! sid = None →
    rooms st !! room = Some r →
    (length (players r) < maxPlayersPerRoom cfg)%nat →
    p ∈ players r → symbol p = sym →
    Rejected cfg st
             (InJoinRoom now joined sid
                         (mkJoin (Some room) (Some nm) av (Some sym) pr))
             SymbolTaken
             [ToSocket sid (EvSymbolTaken "Symbol already taken")]
| rej_move_room sid room index sym :
    rooms st !! room = None →
    Rejected cfg st (InMakeMove sid room index sym) RoomNotFound
             [ToSocket sid (EvError "Room not found")]
| rej_move_member sid room index sym r :
    rooms st !! room = Some r → ¬ member sid r →
    Rejected cfg st (InMakeMove sid room index sym) NotAMember
             [ToSocket sid (EvError "Player not in room")]
| rej_move_state sid room index sym r :
    rooms st !! room = Some r → member sid r →
    gameStatus (gameState r) ≠ active →
    Rejected cfg st (InMakeMove sid room index sym) InvalidState
             [ToSocket sid (EvError "Game is not active")]
| rej_move_turn sid room index sym r :
    rooms st !! room = Some r → member sid r →
    gameStatus (gameState r) = active →
    currentTurn (gameState r) ≠ sym →
    Rejected cfg st (InMakeMove sid room index sym) WrongTurn
             [ToSocket sid (EvError "Not your turn")]
| rej_move_cell sid room index sym r :
    rooms st !! room = Some r → member sid r →
    gameStatus (gameState r) = active →
    currentTurn (gameState r) = sym →
    cellAt (board (gameState r)) index ≠ Some "" →
    Rejected cfg st (InMakeMove sid room index sym) CellOccupied
             [ToSocket sid (EvError "Cell already occupied")]
| rej_reset_room sid room :
    rooms st !! room = None →
    Rejected cfg st (InResetGame sid room) RoomNotFound []
| rej_reset_member sid room r :
    rooms st !! room = Some r → ¬ member sid r →
    Rejected cfg st (InResetGame sid room) NotAMember []
| rej_ready_room sid room :
    rooms st !! room = None →
    Rejected cfg st (InPlayerReady sid room) RoomNotFound []
| rej_ready_member sid room r :
    rooms st !! room = Some r → ¬ member sid r →
    Rejected cfg st (InPlayerReady sid room) NotAMember []
| rej_chat_room now uuid sid room message :
    rooms st !! room = None →
    Rejected cfg st (InChatMessage now uuid sid room message) RoomNotFound []
| rej_chat_member now uuid sid room message r :
    rooms st !! room = Some r → ¬ member sid r →
    Rejected cfg st (InChatMessage now uuid sid room message) NotAMember []
| rej_chat_long now uuid sid room message r :
    rooms st !! room = Some r → member sid r →
    (100 < jsLength (trim message))%nat →
    Rejected cfg st (InChatMessage now uuid sid room message)
             MessageTooLong [].

(** Who is in a room: connection and mark of each player, in order. *)
Definition roster (r : Room) : list (string * string) :=
  (λ p, (pid p, symbol p)) <$> players r.

(** Every room of [st'] is a room of [st] with no player added. *)
Definition no_new_players (st st' : Server) : Prop :=
  ∀ room r', rooms st' !! room = Some r' →
    ∃ r, rooms st !! room = Some r ∧ roster r' `sublist_of` roster r.

Definition isJoin (i : Input) : Prop :=
  match i with
  | InJoinRoom _ _ _ _ => True
  | _ => False
  end.

Definition isJoinSuccess (o : Output) : Prop :=
  match o with
  | ToSocket _ (EvJoinSuccess _ _ _) | ToRoom _ (EvJoinSuccess _ _ _) => True
  | _ => False
  end.

(** ** Sample sessions *)

Definition join (room nm sym : string) : JoinRoomPayload :=
  mkJoin (Some room) (Some (NameString nm)) None (Some sym) None.

(** Alice and Bob, on the connections [a] and [b], join room [R1]. *)
Definition twoJoin : list Input :=
  [InJoinRoom 1 1 "a" (join "R1" "Alice" "X");
   InJoinRoom 2 2 "b" (join "R1" "Bob" "O")].

(** X takes the top row: X:0, O:3, X:1, O:4, X:2. *)
Definition topRow : list Input :=
  [InMakeMove "a" "R1" 0 "X"; InMakeMove "b" "R1" 3 "O";
   InMakeMove "a" "R1" 1 "X"; InMakeMove "b" "R1" 4 "O";
   InMakeMove "a" "R1" 2 "X"].

(** After X has won, Bob leaves and Carol joins on connection [c]. *)
Definition rejoinAfterWin : list Input :=
  twoJoin ++ topRow
  ++ [InDisconnect "b"; InJoinRoom 9 9 "c" (join "R1" "Carol" "O")].

(** ** The room listing *)

(** One record of the array [GET /api/rooms] answers with. *)
Record RoomInfo := mkRoomInfo {
  info_id : string;
  info_playerCount : nat;
  info_maxPlayers : nat;
  info_created : Z
}.

(** The [/api/rooms] route: the entries of [rooms] that are not private
    and not full, each mapped to its record.  The array lists them in the
    insertion order of the [Map]; here they are given by room id, each id
    once, and the order is not modelled. *)
Definition publicRooms (cfg : Config) (st : Server) : gmap string RoomInfo :=
  map_imap
    (λ id room,
       if negb (private room)
          && bool_decide (length (players room) < maxPlayersPerRoom cfg)%nat
       then Some (mkRoomInfo id (length (players room))
                             (maxPlayersPerRoom cfg) (created room))
       else None)
    (rooms st).

(** ** The client ([public/script.js]) *)

(** The fields of the [XOGame] object the move logic reads: [gameState]
    ([null] until the first event with a game state arrives),
    [currentPlayer.symbol] and [roomId]. *)
Record Client := mkClient {
  c_gameState : option GameState;
  c_symbol : string;
  c_roomId : string
}.

(** [canMakeMove()] *)
Definition canMakeMove (c : Client) : bool :=
  match c_gameState c with
  | None => false
  | Some gs =>
      if bool_decide (gameStatus gs ≠ active) then false
      else if bool_decide (currentTurn gs ≠ c_symbol c) then false
      else true
  end.

(** [makeMove(index)] of the client: the payload of the [makeMove] event
    it emits, if it emits one. *)
Definition clientMakeMove (c : Client) (index : Z)
  : option (string * Z * string) :=
  if negb (canMakeMove c) then None
  else
    match c_gameState c with
    | None => None
    | Some gs =>
        if bool_decide (cellAt (board gs) index ≠ Some "") then None
        else Some (c_roomId c, index, c_symbol c)
    end.

(** The loop of [highlightWinningCells]: the first pattern that passes the
    test, which is the test of [checkWinner]. *)
Fixpoint firstPattern (b : list string) (patterns : list (nat * nat * nat))
  : option (nat * nat * nat) :=
  match patterns with
  | [] => None
  | p :: rest =>
      match lineWinner b p with
      | Some _ => Some p
      | None => firstPattern b rest
      end
  end.

(** [highlightWinningCells()]: the indices of the cells that get the class
    [winning]. *)
Definition highlightWinningCells (c : Client) : list nat :=
  match c_gameState c with
  | None => []
  | Some gs =>
      match winner gs with
      | None => []
      | Some w =>
          if negb (truthy w) || bool_decide (w = "tie") then []
          else
            match firstPattern (board gs) winPatterns with
            | Some (i, j, k) => [i; j; k]
            | None => []
            end
      end
  end.

(** ** Further notions used in the statements *)

(** The number of cells that hold a mark. *)
Definition occupied (b : list string) : nat :=
  length (filter (λ cell, cell ≠ "") b).

(** The move counter counts the marks on the board, and a waiting room
    shows a new game. *)
Definition game_counted (gs : GameState) : Prop :=
  moves gs = Z.of_nat (occupied (board gs))
  ∧ (gameStatus gs = waiting → gs = freshGameState waiting).

Definition games_counted (st : Server) : Prop :=
  ∀ room r, rooms st !! room = Some r → game_counted (gameState r).

(** The connections of a room's players, in order. *)
Definition pids (r : Room) : list string := pid <$> players r.

(** How [rooms] and [playerSockets] fit together for one room: the room
    is stored under its own id, every player's connection is recorded for
    this room, and no connection is in the room twice. *)
Record room_members_ok (cfg : Config) (ps : gmap string string)
    (room : string) (r : Room) : Prop := mkMembersOk {
  mo_key : rid r = room;
  mo_map : ∀ sid, sid ∈ pids r → ps !! sid = Some room;
  mo_nodup : NoDup (pids r)
}.

(** A room without players is as it was created: a new game, waiting, and
    no timer. *)
Definition empty_rooms_new (st : Server) : Prop :=
  ∀ room r, rooms st !! room = Some r → players r = [] →
    gameState r = freshGameState waiting ∧ timeout r = None.

Definition members_ok (cfg : Config) (st : Server) : Prop :=
  (∀ room r, rooms st !! room = Some r →
     room_members_ok cfg (playerSockets st) room r)
  ∧ (∀ sid room, playerSockets st !! sid = Some room → room ≠ "").

(** [st'] has the connection map of [st], and every room of [st'] is a
    room of [st] with the same id and the same connections. *)
Definition same_members (st st' : Server) : Prop :=
  playerSockets st' = playerSockets st
  ∧ ∀ room r', rooms st' !! room = Some r' →
      ∃ r, rooms st !! room = Some r ∧ rid r' = rid r ∧ pids r' = pids r.

(** ** The game helpers *)

Lemma truthy_true s : truthy s = true ↔ s ≠ "".
Proof. unfold truthy. rewrite negb_true_iff, bool_decide_eq_false. done. Qed.

Lemma lineWinner_Some b p x :
  lineWinner b p = Some x ↔ x ≠ "" ∧ line x b p.
Proof.
  destruct p as [[i j] k]. unfold lineWinner, line. simpl.
  destruct (b !! i) as [y|] eqn:Hi.
  - split.
    + destruct (truthy y && _ && _) eqn:E; [|discriminate].
      intros [= ->].
      apply andb_true_iff in E as [E Hk].
      apply andb_true_iff in E as [Hx Hj].
      apply bool_decide_eq_true in Hj, Hk. by apply truthy_true in Hx.
    + intros (Hx & [= ->] & Hj & Hk). apply truthy_true in Hx.
      by rewrite Hx, !bool_decide_eq_true_2.
  - split; [discriminate|]. intros (_ & ? & _). discriminate.
Qed.

Lemma firstWinner_Some b ps x :
  firstWinner b ps = Some x → x ≠ "" ∧ ∃ p, p ∈ ps ∧ line x b p.
Proof.
  induction ps as [|p ps IH]; simpl; [discriminate|].
  destruct (lineWinner b p) as [y|] eqn:Hl.
  - intros [= ->]. apply lineWinner_Some in Hl as [? ?].
    split; [done|]. exists p. split; [left|done].
  - intros H. destruct (IH H) as (? & q & ? & ?).
    split; [done|]. exists q. split; [by right|done].
Qed.

Lemma firstWinner_None b ps s p :
  firstWinner b ps = None → p ∈ ps → s ≠ "" → ¬ line s b p.
Proof.
  induction ps as [|q ps IH]; simpl; intros Hf Hin Hs Hline.
  - by apply elem_of_nil in Hin.
  - destruct (lineWinner b q) as [y|] eqn:Hl; [discriminate|].
    apply elem_of_cons in Hin as [->|Hin].
    + assert (lineWinner b q = Some s) as Hq by by apply lineWinner_Some.
      congruence.
    + by apply IH.
Qed.

Lemma checkWinner_truthy b w : checkWinner b = Some w → w ≠ "".
Proof.
  unfold checkWinner.
  destruct (firstWinner b winPatterns) as [x|] eqn:Hf.
  - intros [= ->]. by apply firstWinner_Some in Hf as [? _].
  - destruct (forallb _ b); [|discriminate]. by intros [= <-].
Qed.

Lemma checkWinner_Some b w :
  checkWinner b = Some w → w = "tie" ∨ wins w b.
Proof.
  unfold checkWinner.
  destruct (firstWinner b winPatterns) as [x|] eqn:Hf.
  - intros [= ->]. right. by apply firstWinner_Some.
  - destruct (forallb _ b); [|discriminate]. intros [= <-]. by left.
Qed.

Lemma checkWinner_None b s : checkWinner b = None → ¬ wins s b.
Proof.
  unfold checkWinner.
  destruct (firstWinner b winPatterns) as [x|] eqn:Hf; [discriminate|].
  intros _ (Hs & p & Hin & Hl). by eapply firstWinner_None.
Qed.

Lemma wins_checkWinner b s :
  wins s b → ∃ w, checkWinner b = Some w ∧ wins w b.
Proof.
  intros Hw. destruct (checkWinner b) as [w|] eqn:Hc.
  - exists w. split; [done|].
    unfold checkWinner in Hc.
    destruct (firstWinner b winPatterns) as [x|] eqn:Hf.
    + injection Hc as ->. by apply firstWinner_Some.
    + destruct Hw as (Hs & p & Hin & Hl).
      by destruct (firstWinner_None b winPatterns s p).
  - by destruct (checkWinner_None b s).
Qed.

(** A mark written into an empty cell can only complete lines of its own:
    every other line was there before. *)
Lemma wins_insert b i s t :
  b !! i = Some "" → wins t (<[i := s]> b) → t = s ∨ wins t b.
Proof.
  intros Hi (Ht & p & Hin & H1 & H2 & H3).
  destruct (decide (t = s)) as [|Hne]; [by left|right].
  split; [done|]. exists p. split; [done|].
  assert (∀ j, <[i := s]> b !! j = Some t → b !! j = Some t) as Hold.
  { intros j Hj. apply list_lookup_insert_Some in Hj as [(_ & ? & _)|[_ ?]];
      [congruence|done]. }
  repeat split; by apply Hold.
Qed.

Lemma cellAt_Some b index x :
  cellAt b index = Some x ↔ 0 ≤ index ∧ b !! Z.to_nat index = Some x.
Proof.
  unfold cellAt. destruct (decide (0 ≤ index)) as [Hle|Hlt].
  - rewrite bool_decide_eq_true_2 by done. tauto.
  - rewrite bool_decide_eq_false_2 by done.
    split; [discriminate|]. by intros [? _].
Qed.

(** What [applyMove] does, case by case. *)
Lemma applyMove_accepted gs index sym :
  gameStatus gs = active → currentTurn gs = sym →
  cellAt (board gs) index = Some "" →
  applyMove gs index sym =
    match checkWinner (board (setCell gs index sym)) with
    | Some w => MoveDecided (finish (setCell gs index sym) w) w
    | None => MoveContinues (switchTurn (setCell gs index sym))
    end.
Proof.
  intros Hs Ht Hc. unfold applyMove.
  rewrite !bool_decide_eq_false_2 by (intros ?; congruence).
  destruct (checkWinner _) as [w|] eqn:Hw; [|done].
  apply checkWinner_truthy, truthy_true in Hw. by rewrite Hw.
Qed.

Lemma applyMove_not_error gs index sym :
  (∀ msg, applyMove gs index sym ≠ MoveError msg) →
  gameStatus gs = active ∧ currentTurn gs = sym
  ∧ cellAt (board gs) index = Some "".
Proof.
  intros H. unfold applyMove in H.
  destruct (decide (gameStatus gs = active)) as [Hs|Hs]; cycle 1.
  { rewrite bool_decide_eq_true_2 in H by done. exfalso; eapply H; reflexivity. }
  destruct (decide (currentTurn gs = sym)) as [Ht|Ht]; cycle 1.
  { rewrite bool_decide_eq_false_2, bool_decide_eq_true_2 in H
      by (done || by intros ?).
    exfalso; eapply H; reflexivity. }
  destruct (decide (cellAt (board gs) index = Some "")) as [Hc|Hc]; [done|].
  rewrite !bool_decide_eq_false_2, bool_decide_eq_true_2 in H
    by (done || by intros ?).
  exfalso; eapply H; reflexivity.
Qed.

Lemma applyMove_decided gs index sym gs' w :
  applyMove gs index sym = MoveDecided gs' w →
  gameStatus gs = active ∧ currentTurn gs = sym
  ∧ cellAt (board gs) index = Some ""
  ∧ checkWinner (board (setCell gs index sym)) = Some w
  ∧ gs' = finish (setCell gs index sym) w.
Proof.
  intros H.
  destruct (applyMove_not_error gs index sym) as (Hs & Ht & Hc).
  { intros msg. rewrite H. discriminate. }
  rewrite (applyMove_accepted _ _ _ Hs Ht Hc) in H.
  destruct (checkWinner _) as [w'|]; [|discriminate].
  injection H as <- <-. done.
Qed.

Lemma applyMove_continues gs index sym gs' :
  applyMove gs index sym = MoveContinues gs' →
  gameStatus gs = active ∧ currentTurn gs = sym
  ∧ cellAt (board gs) index = Some ""
  ∧ checkWinner (board (setCell gs index sym)) = None
  ∧ gs' = switchTurn (setCell gs index sym).
Proof.
  intros H.
  destruct (applyMove_not_error gs index sym) as (Hs & Ht & Hc).
  { intros msg. rewrite H. discriminate. }
  rewrite (applyMove_accepted _ _ _ Hs Ht Hc) in H.
  destruct (checkWinner _) as [w'|]; [discriminate|].
  injection H as <-. done.
Qed.

Lemma emptyBoard_no_wins s : ¬ wins s emptyBoard.
Proof.
  intros (Hs & p & _ & H & _). unfold emptyBoard in H.
  apply lookup_replicate in H as [? _]. congruence.
Qed.

(** While a game is active no line is filled, and at no time are lines of
    two different marks filled. *)
Lemma legal_play_lines gs :
  legal_play gs →
  (gameStatus gs = active → ∀ s, ¬ wins s (board gs))
  ∧ (∀ s t, wins s (board gs) → wins t (board gs) → s = t).
Proof.
  induction 1 as [|gs index sym gs' w _ [IHa _] Hm
                  |gs index sym gs' _ [IHa _] Hm].
  - split; [intros _ s|intros s t]; simpl; intros Hw;
      by destruct (emptyBoard_no_wins _ Hw).
  - apply applyMove_decided in Hm as (Hs & _ & Hc & _ & ->).
    apply cellAt_Some in Hc as [_ Hc]. simpl.
    split; [discriminate|]. intros s t Hws Hwt.
    apply (wins_insert _ _ sym) in Hws as [->|Hws], Hwt as [->|Hwt];
      try done; by destruct (IHa Hs _ ltac:(eassumption)).
  - apply applyMove_continues in Hm as (Hs & _ & Hc & Hn & ->).
    simpl in *. split.
    + intros _ s. by apply checkWinner_None.
    + intros s t Hws. by destruct (checkWinner_None _ s Hn).
Qed.

(** C9: on every board reached from the empty board by moves the handler
    accepts (hence alternating, one empty cell at a time, none after the
    game is decided), the eight lines never show a filled line of X together
    with a filled line of O; whenever some line is filled, [checkWinner]
    returns the one mark that fills a line. *)
Theorem legal_play_one_winner gs :
  legal_play gs →
  ¬ (wins "X" (board gs) ∧ wins "O" (board gs))
  ∧ (∀ s t, wins s (board gs) → wins t (board gs) → s = t)
  ∧ (∀ s, wins s (board gs) → checkWinner (board gs) = Some s).
Proof.
  intros Hl. destruct (legal_play_lines gs Hl) as [_ Hu].
  split; [|split; [done|]].
  - intros [Hx Ho]. by specialize (Hu _ _ Hx Ho).
  - intros s Hs. destruct (wins_checkWinner _ _ Hs) as (w & Hc & Hw).
    by rewrite Hc, (Hu _ _ Hs Hw).
Qed.

Lemma legal_play_top_row :
  legal_play
    (mkGameState ["X"; "X"; "X"; "O"; "O"; ""; ""; ""; ""] "X" finished
                 (Some "X") 5).
Proof.
  pose (g := λ b t n, mkGameState b t active None n).
  apply (legal_decided (g ["X"; "X"; ""; "O"; "O"; ""; ""; ""; ""] "X" 4)
                       2 "X" _ "X"); [|reflexivity].
  apply (legal_continues (g ["X"; "X"; ""; "O"; ""; ""; ""; ""; ""] "O" 3)
                         4 "O"); [|reflexivity].
  apply (legal_continues (g ["X"; ""; ""; "O"; ""; ""; ""; ""; ""] "X" 2)
                         1 "X"); [|reflexivity].
  apply (legal_continues (g ["X"; ""; ""; ""; ""; ""; ""; ""; ""] "O" 1)
                         3 "O"); [|reflexivity].
  apply (legal_continues (freshGameState active) 0 "X"); [|reflexivity].
  apply legal_start.
Defined.

Lemma legal_play_one_winner_witness :
  legal_play
    (mkGameState ["X"; "X"; "X"; "O"; "O"; ""; ""; ""; ""] "X" finished
                 (Some "X") 5)
  ∧ checkWinner ["X"; "X"; "X"; "O"; "O"; ""; ""; ""; ""] = Some "X".
Proof.
  split; [exact legal_play_top_row|].
  refine (proj2 (proj2 (legal_play_one_winner _ legal_play_top_row)) "X" _).
  split; [done|]. exists (0, 1, 2)%nat. split; [left|done].
Defined.

(** ** The [makeMove] handler *)

Lemma findPlayer_Some sid ps i p :
  findPlayer sid ps = Some (i, p) → ps !! i = Some p ∧ pid p = sid.
Proof.
  unfold findPlayer. intros H. apply list_find_Some in H as (? & ? & _). done.
Qed.

Lemma findPlayer_None sid r :
  findPlayer sid (players r) = None ↔ ¬ member sid r.
Proof.
  unfold findPlayer, member. rewrite list_find_None, Forall_forall.
  split.
  - intros H (p & Hin & Hp). by apply (H p).
  - intros H p Hin Hp. apply H. by exists p.
Qed.

Lemma findPlayer_member sid r :
  member sid r → ∃ i p, findPlayer sid (players r) = Some (i, p).
Proof.
  intros Hm. destruct (findPlayer sid (players r)) as [[i p]|] eqn:Hf.
  - by exists i, p.
  - by apply findPlayer_None in Hf.
Qed.

Lemma switchTurn_other gs sym :
  currentTurn gs = sym →
  currentTurn (switchTurn gs) ≠ sym ∧ isMark (currentTurn (switchTurn gs)).
Proof.
  intros <-. unfold switchTurn, isMark. simpl.
  destruct (decide (currentTurn gs = "X")) as [->|Hne].
  - rewrite bool_decide_eq_true_2 by done. split; [discriminate|by right].
  - rewrite bool_decide_eq_false_2 by done. split; [congruence|by left].
Qed.

(** C3: a move by a member on an active game, in turn and on an empty
    cell of the board, writes the mark into that cell and adds one to
    [moves]; when [checkWinner] on the new board returns a mark or a tie the
    status becomes finished and [winner] holds what it returned; otherwise
    the game stays active and [currentTurn] becomes the mark that did not
    just move. *)
Theorem makeMove_success sid room index sym st roomData i player :
  rooms st !! room = Some roomData →
  findPlayer sid (players roomData) = Some (i, player) →
  gameStatus (gameState roomData) = active →
  currentTurn (gameState roomData) = sym →
  cellAt (board (gameState roomData)) index = Some "" →
  ∃ roomData',
    rooms (makeMove sid room index sym st).1 !! room = Some roomData'
    ∧ board (gameState roomData')
      = <[Z.to_nat index := sym]> (board (gameState roomData))
    ∧ board (gameState roomData') !! Z.to_nat index = Some sym
    ∧ moves (gameState roomData') = moves (gameState roomData) + 1
    ∧ players roomData' = players roomData
    ∧ match checkWinner (board (gameState roomData')) with
      | Some w =>
          gameStatus (gameState roomData') = finished
          ∧ winner (gameState roomData') = Some w
      | None =>
          gameStatus (gameState roomData') = active
          ∧ winner (gameState roomData') = winner (gameState roomData)
          ∧ currentTurn (gameState roomData') ≠ sym
          ∧ isMark (currentTurn (gameState roomData'))
      end.
Proof.
  intros Hr Hp Hs Ht Hc. unfold makeMove. rewrite Hr, Hp.
  rewrite (applyMove_accepted _ _ _ Hs Ht Hc).
  assert (<[Z.to_nat index := sym]> (board (gameState roomData))
            !! Z.to_nat index = Some sym) as Hcell.
  { apply cellAt_Some in Hc as [_ Hc]. apply list_lookup_insert_eq.
    by eapply lookup_lt_Some. }
  destruct (switchTurn_other (setCell (gameState roomData) index sym) sym Ht)
    as [Hne Hmark].
  destruct (checkWinner (board (setCell _ index sym))) as [w|] eqn:Hw;
    simpl; rewrite lookup_insert_eq; eexists; (split; [reflexivity|]);
    simpl; simpl in Hw; rewrite Hw; split_and!; done.
Qed.

Lemma makeMove_success_witness :
  ∃ roomData',
    rooms (makeMove "a" "R1" 0 "X" (run config twoJoin initial).1).1 !! "R1"
    = Some roomData'
    ∧ board (gameState roomData')
      = ["X"; ""; ""; ""; ""; ""; ""; ""; ""]
    ∧ currentTurn (gameState roomData') = "O".
Proof.
  destruct (makeMove_success "a" "R1" 0 "X" (run config twoJoin initial).1
              (mkRoom "R1"
                 [mkPlayer "a" "Alice" defaultAvatar "X" 1 false;
                  mkPlayer "b" "Bob" defaultAvatar "O" 2 false]
                 (freshGameState active) 1 false (Some 0%nat))
              0%nat (mkPlayer "a" "Alice" defaultAvatar "X" 1 false))
    as (r' & Hr' & Hb & _ & _ & _ & Hw); try reflexivity.
  exists r'. split; [exact Hr'|]. split; [exact Hb|].
  rewrite Hb in Hw. simpl in Hw.
  destruct Hw as (_ & _ & Hne & [HX|HO]); [|exact HO].
  exfalso. exact (Hne HX).
Defined.

Lemma cellAt_out_of_range b index :
  length b = 9%nat → ¬ (0 ≤ index < 9) → cellAt b index = None.
Proof.
  intros Hlen Hout. unfold cellAt.
  destruct (decide (0 ≤ index)) as [Hle|Hlt].
  - rewrite bool_decide_eq_true_2 by done. apply lookup_ge_None. lia.
  - by rewrite bool_decide_eq_false_2.
Qed.

Lemma makeMove_error sid room index sym st roomData i player msg :
  rooms st !! room = Some roomData →
  findPlayer sid (players roomData) = Some (i, player) →
  applyMove (gameState roomData) index sym = MoveError msg →
  makeMove sid room index sym st = (st, [ToSocket sid (EvError msg)]).
Proof. intros Hr Hp Ha. unfold makeMove. by rewrite Hr, Hp, Ha. Qed.

(** C4, as the code has it: for a member's move on a board of nine cells
    there are three rejections, each answered to the caller alone with the
    whole server state (so board, [moves] and [currentTurn]) unchanged:
    ['Game is not active'] when the status is not active, ['Not your turn']
    when the mark differs from [currentTurn], and ['Cell already occupied']
    when the addressed cell is not an empty cell of the board, which is the
    one answer both for an occupied cell and for every index outside
    [0,9); any other move is accepted and broadcast. *)
Theorem makeMove_rejections sid room index sym st roomData i player :
  rooms st !! room = Some roomData →
  findPlayer sid (players roomData) = Some (i, player) →
  length (board (gameState roomData)) = 9%nat →
  (gameStatus (gameState roomData) ≠ active →
   makeMove sid room index sym st
   = (st, [ToSocket sid (EvError "Game is not active")]))
  ∧ (gameStatus (gameState roomData) = active →
     currentTurn (gameState roomData) ≠ sym →
     makeMove sid room index sym st
     = (st, [ToSocket sid (EvError "Not your turn")]))
  ∧ (gameStatus (gameState roomData) = active →
     currentTurn (gameState roomData) = sym →
     (¬ (0 ≤ index < 9)
      ∨ ∃ x, cellAt (board (gameState roomData)) index = Some x ∧ x ≠ "") →
     makeMove sid room index sym st
     = (st, [ToSocket sid (EvError "Cell already occupied")]))
  ∧ (gameStatus (gameState roomData) = active →
     currentTurn (gameState roomData) = sym →
     0 ≤ index < 9 →
     cellAt (board (gameState roomData)) index = Some "" →
     ∃ e, (makeMove sid room index sym st).2 = [ToRoom room e]).
Proof.
  intros Hr Hp Hlen. split_and!.
  - intros Hs. apply (makeMove_error _ _ _ _ _ _ _ _ _ Hr Hp).
    unfold applyMove. by rewrite bool_decide_eq_true_2.
  - intros Hs Ht. apply (makeMove_error _ _ _ _ _ _ _ _ _ Hr Hp).
    unfold applyMove.
    rewrite bool_decide_eq_false_2 by (by intros ?).
    by rewrite bool_decide_eq_true_2.
  - intros Hs Ht Hcell. apply (makeMove_error _ _ _ _ _ _ _ _ _ Hr Hp).
    unfold applyMove.
    rewrite !bool_decide_eq_false_2 by (by intros ?).
    rewrite bool_decide_eq_true_2; [done|].
    destruct Hcell as [Hout|(x & Hx & Hne)].
    + by rewrite (cellAt_out_of_range _ _ Hlen Hout).
    + rewrite Hx. congruence.
  - intros Hs Ht _ Hc. unfold makeMove. rewrite Hr, Hp.
    rewrite (applyMove_accepted _ _ _ Hs Ht Hc).
    destruct (checkWinner _); simpl; by eexists.
Qed.

Lemma makeMove_rejections_witness :
  makeMove "a" "R1" 9 "X" (run config twoJoin initial).1
  = ((run config twoJoin initial).1,
     [ToSocket "a" (EvError "Cell already occupied")]).
Proof.
  refine (proj1 (proj2 (proj2
    (makeMove_rejections "a" "R1" 9 "X" (run config twoJoin initial).1
       (mkRoom "R1"
          [mkPlayer "a" "Alice" defaultAvatar "X" 1 false;
           mkPlayer "b" "Bob" defaultAvatar "O" 2 false]
          (freshGameState active) 1 false (Some 0%nat))
       0%nat (mkPlayer "a" "Alice" defaultAvatar "X" 1 false)
       _ _ _))) _ _ _); try reflexivity.
  left. lia.
Defined.

(** The claim C4 fails on an out-of-range index: in the game Alice and Bob
    have just started, a move on index 9, or on index -1, is answered with
    the error of an occupied cell; the handler has no error of its own for
    an index outside the board. *)
Lemma makeMove_out_of_range_counterexample :
  makeMove "a" "R1" 9 "X" (run config twoJoin initial).1
  = ((run config twoJoin initial).1,
     [ToSocket "a" (EvError "Cell already occupied")])
  ∧ makeMove "a" "R1" (-1) "X" (run config twoJoin initial).1
    = ((run config twoJoin initial).1,
       [ToSocket "a" (EvError "Cell already occupied")])
  ∧ makeMove "b" "R1" 0 "O"
             (run config (twoJoin ++ [InMakeMove "a" "R1" 0 "X"]) initial).1
    = ((run config (twoJoin ++ [InMakeMove "a" "R1" 0 "X"]) initial).1,
       [ToSocket "b" (EvError "Cell already occupied")]).
Proof. split_and!; vm_compute; reflexivity. Qed.

(** ** Invariants of the reachable states *)

Lemma server_ok_insert cfg st room r :
  server_ok cfg st → room_ok cfg r →
  server_ok cfg (setRooms (insert room r) st).
Proof.
  intros Hst Hr room' r'. simpl. rewrite lookup_insert.
  case_decide; [by intros [= <-]|]. apply Hst.
Qed.

Lemma server_ok_delete cfg st room :
  server_ok cfg st → server_ok cfg (setRooms (delete room) st).
Proof.
  intros Hst room' r'. simpl. rewrite lookup_delete.
  case_decide; [discriminate|]. apply Hst.
Qed.

Lemma server_ok_rooms cfg st st' :
  rooms st' = rooms st → server_ok cfg st → server_ok cfg st'.
Proof. intros Heq Hst room r. rewrite Heq. apply Hst. Qed.

Lemma rooms_clearRoomTimeout r st :
  rooms (clearRoomTimeout r st) = rooms st.
Proof. unfold clearRoomTimeout. by destruct (timeout r). Qed.

Lemma game_ok_fresh s : game_ok (freshGameState s).
Proof.
  split_and!; [by left| |done].
  repeat constructor.
Qed.

Lemma symbols_withReady b (ps : list Player) :
  symbol <$> (withReady b <$> ps) = symbol <$> ps.
Proof. rewrite <- list_fmap_compose. by apply list_fmap_ext. Qed.

Lemma resetRoom_ok cfg roomId st :
  server_ok cfg st → server_ok cfg (resetRoom roomId st).
Proof.
  intros Hst. unfold resetRoom.
  destruct (rooms st !! roomId) as [r|] eqn:Hr; [|done].
  destruct (Hst _ _ Hr) as [Hcap Hsym Hact Hgame].
  apply server_ok_insert.
  { eapply server_ok_rooms; [apply rooms_clearRoomTimeout|done]. }
  split; simpl.
  - by rewrite length_fmap.
  - by rewrite symbols_withReady.
  - rewrite length_fmap. case_bool_decide; [by left|discriminate].
  - apply game_ok_fresh.
Qed.

Lemma leaveRoom_ok cfg socketId roomId st :
  server_ok cfg st → server_ok cfg (leaveRoom socketId roomId st).1.
Proof.
  intros Hst. unfold leaveRoom.
  destruct (rooms st !! roomId) as [r|] eqn:Hr; [|done].
  destruct (Hst _ _ Hr) as [Hcap Hsym Hact Hgame].
  set (rest := filter (λ p, pid p ≠ socketId) (players r)).
  assert (rest `sublist_of` players r) as Hsub by apply sublist_filter.
  case_bool_decide; simpl.
  { apply server_ok_delete.
    eapply server_ok_rooms; [apply rooms_clearRoomTimeout|done]. }
  case_bool_decide; simpl; apply server_ok_insert; try done; split; simpl.
  - etrans; [by apply sublist_length|done].
  - eapply sublist_NoDup; [done|by apply fmap_sublist].
  - discriminate.
  - done.
  - etrans; [by apply sublist_length|done].
  - eapply sublist_NoDup; [done|by apply fmap_sublist].
  - done.
  - done.
Qed.

Lemma game_ok_setCell gs index :
  game_ok gs → game_ok (setCell gs index (currentTurn gs)).
Proof.
  intros (Ht & Hb & Hl). split_and!; simpl; [done| |by rewrite length_insert].
  apply Forall_insert; [done|by right].
Qed.

Lemma applyMove_game_ok gs index sym :
  game_ok gs →
  match applyMove gs index sym with
  | MoveError _ => True
  | MoveDecided gs' _ => game_ok gs' ∧ gameStatus gs' = finished
  | MoveContinues gs' => game_ok gs' ∧ gameStatus gs' = active
  end.
Proof.
  intros Hok. destruct (applyMove gs index sym) as [msg|gs' w|gs'] eqn:Ha;
    [done| |].
  - apply applyMove_decided in Ha as (_ & <- & _ & _ & ->).
    split; [|done]. by apply (game_ok_setCell _ index) in Hok.
  - apply applyMove_continues in Ha as (Hs & <- & _ & _ & ->).
    split; [|done].
    apply (game_ok_setCell _ index) in Hok as (_ & Hb & Hl).
    split_and!; [|done|done].
    by apply (switchTurn_other _ _ eq_refl).
Qed.

Lemma makeMove_ok cfg sid room index sym st :
  server_ok cfg st → server_ok cfg (makeMove sid room index sym st).1.
Proof.
  intros Hst. unfold makeMove.
  destruct (rooms st !! room) as [r|] eqn:Hr; [|done].
  destruct (findPlayer sid (players r)) as [[i p]|]; [|done].
  destruct (Hst _ _ Hr) as [Hcap Hsym Hact Hgame].
  pose proof (applyMove_game_ok _ index sym Hgame) as Hm.
  pose proof (applyMove_not_error (gameState r) index sym) as Hne.
  destruct (applyMove (gameState r) index sym) as [msg|gs' w|gs']; [done| |];
    destruct Hm as [Hg Hs]; simpl; apply server_ok_insert; try done.
  - eapply server_ok_rooms; [apply rooms_clearRoomTimeout|done].
  - split; simpl; try done. by rewrite Hs.
  - split; simpl; try done. intros _. apply Hact. by apply Hne.
Qed.

Lemma playerReady_ok cfg sid room st :
  server_ok cfg st → server_ok cfg (playerReady sid room st).1.
Proof.
  intros Hst. unfold playerReady.
  destruct (rooms st !! room) as [r|] eqn:Hr; [|done].
  destruct (findPlayer sid (players r)) as [[i p]|] eqn:Hp; [|done].
  destruct (Hst _ _ Hr) as [Hcap Hsym Hact Hgame].
  apply findPlayer_Some in Hp as [Hi _].
  simpl. apply server_ok_insert; [done|]. split; simpl.
  - by rewrite length_insert.
  - rewrite list_fmap_insert. simpl. by rewrite list_insert_id
      by (by rewrite list_lookup_fmap, Hi).
  - by rewrite length_insert.
  - done.
Qed.

Lemma resetGame_ok cfg sid room st :
  server_ok cfg st → server_ok cfg (resetGame sid room st).1.
Proof.
  intros Hst. unfold resetGame.
  destruct (rooms st !! room) as [r|]; [|done].
  destruct (findPlayer sid (players r)) as [[i p]|]; [|done].
  destruct (rooms (resetRoom room st) !! room); by apply resetRoom_ok.
Qed.

Lemma chatMessage_state now uuid sid room message st :
  (chatMessage now uuid sid room message st).1 = st.
Proof.
  unfold chatMessage. destruct (rooms st !! room) as [r|]; [|done].
  destruct (findPlayer sid (players r)) as [[i p]|]; [|done].
  by case_bool_decide.
Qed.

Lemma disconnect_ok cfg sid st :
  server_ok cfg st → server_ok cfg (disconnect sid st).1.
Proof.
  intros Hst. unfold disconnect.
  destruct (playerSockets st !! sid) as [room|]; [|done].
  destruct (truthy room); [|done].
  pose proof (leaveRoom_ok cfg sid room st Hst) as Hl.
  by destruct (leaveRoom sid room st).
Qed.

Lemma gameTimeout_ok cfg h st :
  server_ok cfg st → server_ok cfg (gameTimeout h st).1.
Proof.
  intros Hst. unfold gameTimeout.
  destruct (timers st !! h) as [room|]; [|done].
  by apply resetRoom_ok.
Qed.

Lemma cleanup_ok cfg now st :
  server_ok cfg st → server_ok cfg (cleanup now st).
Proof.
  intros Hst room r. simpl. intros H.
  apply map_lookup_filter_Some in H as [H _]. by apply (Hst room).
Qed.

Lemma symbolTaken_true (ps : list Player) sym :
  existsb (λ p, bool_decide (symbol p = sym)) ps = true
  ↔ ∃ p, p ∈ ps ∧ symbol p = sym.
Proof.
  rewrite existsb_exists. split; intros (p & Hin & Hp); exists p.
  - apply list_elem_of_In in Hin. by apply bool_decide_eq_true in Hp.
  - apply list_elem_of_In in Hin. by rewrite bool_decide_eq_true.
Qed.

Lemma symbolTaken_false (ps : list Player) sym :
  existsb (λ p, bool_decide (symbol p = sym)) ps = false
  ↔ ∀ p, p ∈ ps → symbol p ≠ sym.
Proof.
  rewrite <- not_true_iff_false, symbolTaken_true. split.
  - intros H p Hin Hp. apply H. by exists p.
  - intros H (p & Hin & Hp). by apply (H p).
Qed.

Lemma ensureRoom_ok cfg room isPrivate now st :
  server_ok cfg st →
  server_ok cfg (ensureRoom room isPrivate now st).1
  ∧ rooms (ensureRoom room isPrivate now st).1 !! room
    = Some (ensureRoom room isPrivate now st).2.
Proof.
  intros Hst. unfold ensureRoom.
  destruct (rooms st !! room) as [r|] eqn:Hr; simpl; [done|].
  rewrite lookup_insert_eq. split; [|done].
  apply server_ok_insert; [done|]. split; simpl.
  - lia.
  - constructor.
  - discriminate.
  - apply game_ok_fresh.
Qed.

Lemma startGame_ok cfg room r st :
  server_ok cfg st → room_ok cfg r → server_ok cfg (startGame room r st).1.
Proof.
  intros Hst [Hcap Hsym Hact (Ht & Hb & Hl)]. unfold startGame.
  case_bool_decide; simpl; apply server_ok_insert; try done.
  split; simpl; try done; [by left|]. split_and!; [by left|done|done].
Qed.

Lemma room_ok_push cfg r player :
  room_ok cfg r →
  (length (players r) < maxPlayersPerRoom cfg)%nat →
  (∀ p, p ∈ players r → symbol p ≠ symbol player) →
  room_ok cfg (withPlayers (players r ++ [player]) r).
Proof.
  intros [Hcap Hsym Hact Hgame] Hlt Hfree. split; simpl.
  - rewrite length_app. simpl. lia.
  - rewrite fmap_app. apply NoDup_app. split_and!; [done| |].
    + intros s Hs Hs'. apply list_elem_of_fmap in Hs as (p & -> & Hp).
      apply list_elem_of_singleton in Hs'. by apply (Hfree p).
    + simpl. apply NoDup_singleton.
  - intros Hs. right. destruct (Hact Hs); lia.
  - done.
Qed.

Lemma joinRoom_ok cfg now joined sid rq st :
  server_ok cfg st → server_ok cfg (joinRoom cfg now joined sid rq st).1.
Proof.
  intros Hst. unfold joinRoom.
  destruct (negb _); [done|].
  destruct (_ || _); [done|].
  assert (server_ok cfg (leavePrevious sid st).1) as Hst1.
  { unfold leavePrevious. destruct (playerSockets st !! sid) as [prev|];
      [|done].
    destruct (truthy prev); [|done]. by apply leaveRoom_ok. }
  destruct (leavePrevious sid st) as [st1 out1]. simpl in Hst1.
  destruct (ensureRoom_ok cfg (default "" (jr_room rq))
              (default false (jr_isPrivate rq)) now st1 Hst1) as [Hst2 Hr].
  destruct (ensureRoom _ _ now st1) as [st2 r]. simpl in Hst2, Hr.
  case_bool_decide as Hfull; [done|].
  destruct (existsb _ (players r)) eqn:Htaken; [done|].
  destruct (trimName _) as [e|trimmed]; [by eapply server_ok_rooms|].
  match goal with
  | |- context [startGame ?room ?r1 ?st3] =>
      pose proof (startGame_ok cfg room r1 st3) as Hstart;
      destruct (startGame room r1 st3) as [st4 out3]
  end.
  assert (server_ok cfg st4) as Hst4.
  { apply Hstart; [by eapply server_ok_rooms|].
    apply room_ok_push; [by eapply Hst2|lia|].
    by apply symbolTaken_false. }
  by destruct (joinSuccessPayload _ _).
Qed.

Lemma handle_ok cfg i st :
  server_ok cfg st → server_ok cfg (handle cfg i st).1.
Proof.
  intros Hst. destruct i; simpl.
  - by apply joinRoom_ok.
  - by apply makeMove_ok.
  - by apply resetGame_ok.
  - by apply playerReady_ok.
  - by rewrite chatMessage_state.
  - by apply disconnect_ok.
  - by apply gameTimeout_ok.
  - by apply cleanup_ok.
Qed.

Lemma reachable_ok cfg st : reachable cfg st → server_ok cfg st.
Proof.
  induction 1 as [|i st _ IH].
  - intros room r H. simpl in H. by rewrite lookup_empty in H.
  - by apply handle_ok.
Qed.

Lemma reachable_run cfg inputs st :
  reachable cfg st → reachable cfg (run cfg inputs st).1.
Proof.
  revert st. induction inputs as [|i inputs IH]; intros st Hst; [done|].
  simpl. pose proof (reachable_handle cfg i st Hst) as H1.
  destruct (handle cfg i st) as [st1 out1]. simpl in H1.
  specialize (IH st1 H1). by destruct (run cfg inputs st1).
Defined.

(** ** Membership *)

Lemma no_new_players_refl st st' :
  rooms st' = rooms st → no_new_players st st'.
Proof. intros Heq room r' H. exists r'. by rewrite <- Heq. Qed.

Lemma no_new_players_insert st st1 room r r' :
  rooms st1 = rooms st → rooms st !! room = Some r →
  roster r' `sublist_of` roster r →
  no_new_players st (setRooms (insert room r') st1).
Proof.
  intros Heq Hr Hsub room' r''. simpl. rewrite Heq, lookup_insert.
  case_decide as Hk.
  - intros [= <-]. exists r. by rewrite <- Hk.
  - intros Hl. by exists r''.
Qed.

Lemma no_new_players_delete st st1 room :
  rooms st1 = rooms st → no_new_players st (setRooms (delete room) st1).
Proof.
  intros Heq room' r'. simpl. rewrite Heq, lookup_delete.
  case_decide; [discriminate|]. intros Hl. by exists r'.
Qed.

Lemma no_new_players_trans st1 st2 st3 :
  no_new_players st1 st2 → no_new_players st2 st3 → no_new_players st1 st3.
Proof.
  intros H12 H23 room r3 H3.
  destruct (H23 _ _ H3) as (r2 & H2 & Hs2).
  destruct (H12 _ _ H2) as (r1 & H1 & Hs1).
  exists r1. split; [done|]. by etrans.
Qed.

Lemma roster_withReady b (ps : list Player) :
  (λ p, (pid p, symbol p)) <$> (withReady b <$> ps)
  = (λ p, (pid p, symbol p)) <$> ps.
Proof. rewrite <- list_fmap_compose. by apply list_fmap_ext. Qed.

Lemma resetRoom_no_new roomId st : no_new_players st (resetRoom roomId st).
Proof.
  unfold resetRoom. destruct (rooms st !! roomId) as [r|] eqn:Hr.
  - eapply no_new_players_insert; [apply rooms_clearRoomTimeout|done|].
    unfold roster. simpl. by rewrite roster_withReady.
  - by apply no_new_players_refl.
Qed.

Lemma leaveRoom_no_new socketId roomId st :
  no_new_players st (leaveRoom socketId roomId st).1.
Proof.
  unfold leaveRoom. destruct (rooms st !! roomId) as [r|] eqn:Hr;
    [|by apply no_new_players_refl].
  case_bool_decide; simpl.
  { apply no_new_players_delete, rooms_clearRoomTimeout. }
  case_bool_decide; simpl;
    (eapply no_new_players_insert; [done|done|]);
    unfold roster; simpl; apply fmap_sublist, sublist_filter.
Qed.

Lemma handle_no_new cfg i st :
  ¬ isJoin i → no_new_players st (handle cfg i st).1.
Proof.
  intros Hi. destruct i; simpl.
  - by destruct Hi.
  - unfold makeMove. destruct (rooms st !! room) as [r|] eqn:Hr;
      [|by apply no_new_players_refl].
    destruct (findPlayer sid (players r)) as [[j p]|];
      [|by apply no_new_players_refl].
    destruct (applyMove _ _ _); simpl.
    + by apply no_new_players_refl.
    + eapply no_new_players_insert;
        [apply rooms_clearRoomTimeout|done|done].
    + by eapply no_new_players_insert.
  - unfold resetGame. destruct (rooms st !! room) as [r|] eqn:Hr;
      [|by apply no_new_players_refl].
    destruct (findPlayer sid (players r)) as [[j p]|];
      [|by apply no_new_players_refl].
    destruct (rooms (resetRoom room st) !! room); apply resetRoom_no_new.
  - unfold playerReady. destruct (rooms st !! room) as [r|] eqn:Hr;
      [|by apply no_new_players_refl].
    destruct (findPlayer sid (players r)) as [[j p]|] eqn:Hp;
      [|by apply no_new_players_refl].
    apply findPlayer_Some in Hp as [Hj _]. simpl.
    eapply no_new_players_insert; [done|done|].
    unfold roster. simpl. rewrite list_fmap_insert. simpl.
    by rewrite list_insert_id by (by rewrite list_lookup_fmap, Hj).
  - rewrite chatMessage_state. by apply no_new_players_refl.
  - unfold disconnect. destruct (playerSockets st !! sid) as [room|];
      [|by apply no_new_players_refl].
    destruct (truthy room); [|by apply no_new_players_refl].
    pose proof (leaveRoom_no_new sid room st) as Hl.
    by destruct (leaveRoom sid room st).
  - unfold gameTimeout. destruct (timers st !! h) as [room|];
      [|by apply no_new_players_refl].
    simpl. apply (no_new_players_trans _ (clearTimeout h st));
      [by apply no_new_players_refl|apply resetRoom_no_new].
  - intros room r' H. simpl in H.
    apply map_lookup_filter_Some in H as [H _]. by exists r'.
Qed.

(** What [joinRoom] answers when the room, looked up after the caller has
    left its previous room, has no free place or already has the mark. *)
Lemma joinRoom_refused cfg now joined sid room nm sym av pr st st1 out1 r :
  room ≠ "" → nm ≠ "" → sym ≠ "" →
  (jsLength nm ≤ 20)%nat → (jsLength room ≤ 10)%nat →
  leavePrevious sid st = (st1, out1) →
  rooms st1 !! room = Some r →
  ((maxPlayersPerRoom cfg ≤ length (players r))%nat →
   joinRoom cfg now joined sid (mkJoin (Some room) (Some (NameString nm)) av (Some sym) pr) st
   = (st1, out1 ++ [ToSocket sid (EvRoomFull "Room is full")]))
  ∧ ((length (players r) < maxPlayersPerRoom cfg)%nat →
     (∃ p, p ∈ players r ∧ symbol p = sym) →
     joinRoom cfg now joined sid (mkJoin (Some room) (Some (NameString nm)) av (Some sym) pr) st
     = (st1, out1 ++ [ToSocket sid (EvSymbolTaken "Symbol already taken")])).
Proof.
  intros Hroom Hnm Hsym Hl1 Hl2 Hleave Hr.
  apply truthy_true in Hroom, Hnm, Hsym.
  unfold joinRoom. simpl. rewrite Hroom, Hnm, Hsym. simpl.
  rewrite !bool_decide_eq_false_2 by lia. simpl.
  rewrite Hleave. unfold ensureRoom. rewrite Hr.
  split.
  - intros Hfull. by rewrite bool_decide_eq_true_2.
  - intros Hfree Htaken. rewrite bool_decide_eq_false_2 by lia.
    apply symbolTaken_true in Htaken. by rewrite Htaken.
Qed.

(** C5: in every reachable state of a server whose capacity is at most 2,
    a room has at most two players and no two of them have the same mark;
    [joinRoom] answers [roomFull] when the room has no free place and
    [symbolTaken] when the mark is in use, in both cases adding nobody; and
    no input other than [joinRoom] adds a player to any room. *)
Theorem rooms_two_players_distinct_symbols cfg st :
  (maxPlayersPerRoom cfg ≤ 2)%nat →
  reachable cfg st →
  (∀ room r, rooms st !! room = Some r →
     (length (players r) ≤ 2)%nat ∧ NoDup (symbol <$> players r))
  ∧ (∀ now joined sid room nm sym av pr st1 out1 r,
       room ≠ "" → nm ≠ "" → sym ≠ "" →
       (jsLength nm ≤ 20)%nat → (jsLength room ≤ 10)%nat →
       leavePrevious sid st = (st1, out1) →
       rooms st1 !! room = Some r →
       ((maxPlayersPerRoom cfg ≤ length (players r))%nat →
        joinRoom cfg now joined sid
                 (mkJoin (Some room) (Some (NameString nm)) av (Some sym) pr) st
        = (st1, out1 ++ [ToSocket sid (EvRoomFull "Room is full")]))
       ∧ ((length (players r) < maxPlayersPerRoom cfg)%nat →
          (∃ p, p ∈ players r ∧ symbol p = sym) →
          joinRoom cfg now joined sid
                   (mkJoin (Some room) (Some (NameString nm)) av (Some sym) pr) st
          = (st1, out1
                  ++ [ToSocket sid (EvSymbolTaken "Symbol already taken")])))
  ∧ (∀ i, ¬ isJoin i → no_new_players st (handle cfg i st).1).
Proof.
  intros Hmax Hreach. split_and!.
  - intros room r Hr.
    destruct (reachable_ok cfg st Hreach room r Hr) as [Hcap Hsym _ _].
    split; [lia|done].
  - intros. by eapply joinRoom_refused.
  - intros i Hi. by apply handle_no_new.
Qed.

Lemma rooms_two_players_distinct_symbols_witness :
  ∃ r,
    rooms (run config (twoJoin ++ topRow) initial).1 !! "R1" = Some r
    ∧ (length (players r) ≤ 2)%nat
    ∧ NoDup (symbol <$> players r).
Proof.
  eexists. split; [vm_compute; reflexivity|].
  refine (proj1 (rooms_two_players_distinct_symbols config
                   (run config (twoJoin ++ topRow) initial).1 _ _)
                "R1" _ _).
  - simpl. lia.
  - apply reachable_run, reachable_initial.
  - vm_compute. reflexivity.
Defined.

(** ** The [gameEnd] event *)

Lemma wins_cell s b : wins s b → s ≠ "" ∧ s ∈ b.
Proof.
  intros (Hs & p & _ & H & _). split; [done|].
  by eapply list_elem_of_lookup_2.
Qed.

Lemma checkWinner_values b w :
  Forall isCell b → checkWinner b = Some w →
  w = "X" ∨ w = "O" ∨ w = "tie".
Proof.
  intros Hb Hw. apply checkWinner_Some in Hw as [->|Hw]; [by right; right|].
  apply wins_cell in Hw as [Hne Hin].
  rewrite Forall_forall in Hb.
  destruct (Hb _ Hin) as [->|[->| ->]]; [done|by left|by right; left].
Qed.

(** C10: when a member's accepted move makes [checkWinner] return [w],
    the handler broadcasts one [gameEnd] event whose [winner] field is the
    display name of the player found for the calling connection when [w] is
    a mark, and [null] when [w] is ['tie']; the [gameState] stored in the
    room (and sent along) has [winner] set to [w], which is ["X"], ["O"] or
    ["tie"]. *)
Theorem gameEnd_winner_is_mover_name cfg sid room index sym st roomData i
    player w :
  reachable cfg st →
  rooms st !! room = Some roomData →
  findPlayer sid (players roomData) = Some (i, player) →
  gameStatus (gameState roomData) = active →
  currentTurn (gameState roomData) = sym →
  cellAt (board (gameState roomData)) index = Some "" →
  checkWinner (<[Z.to_nat index := sym]> (board (gameState roomData)))
  = Some w →
  pid player = sid
  ∧ (∃ gs',
       (makeMove sid room index sym st).2
       = [ToRoom room
            (EvGameEnd
               (if bool_decide (w = "tie") then None else Some (name player))
               gs'
               (if bool_decide (w = "tie") then "tie" else "win"))]
       ∧ (∃ r', rooms (makeMove sid room index sym st).1 !! room = Some r'
                ∧ gameState r' = gs')
       ∧ gameStatus gs' = finished
       ∧ winner gs' = Some w)
  ∧ (w = "X" ∨ w = "O" ∨ w = "tie").
Proof.
  intros Hreach Hr Hp Hs Ht Hc Hw.
  destruct (reachable_ok cfg st Hreach room roomData Hr) as [_ _ _ Hgame].
  split_and!.
  - by apply findPlayer_Some in Hp as [_ ?].
  - unfold makeMove. rewrite Hr, Hp.
    rewrite (applyMove_accepted _ _ _ Hs Ht Hc). simpl. rewrite Hw. simpl.
    eexists. split; [reflexivity|]. rewrite lookup_insert_eq.
    split_and!; try done. by eexists.
  - apply (game_ok_setCell _ index) in Hgame as (_ & Hb & _).
    rewrite Ht in Hb. by apply (checkWinner_values _ _ Hb).
Qed.

Lemma gameEnd_winner_is_mover_name_witness :
  ∃ gs',
    (makeMove "a" "R1" 2 "X"
       (run config (twoJoin ++ take 4 topRow) initial).1).2
    = [ToRoom "R1" (EvGameEnd (Some "Alice") gs' "win")]
    ∧ winner gs' = Some "X".
Proof.
  destruct (gameEnd_winner_is_mover_name config "a" "R1" 2 "X"
              (run config (twoJoin ++ take 4 topRow) initial).1
              (mkRoom "R1"
                 [mkPlayer "a" "Alice" defaultAvatar "X" 1 false;
                  mkPlayer "b" "Bob" defaultAvatar "O" 2 false]
                 (mkGameState ["X"; "X"; ""; "O"; "O"; ""; ""; ""; ""]
                              "X" active None 4)
                 1 false (Some 0%nat))
              0%nat (mkPlayer "a" "Alice" defaultAvatar "X" 1 false) "X")
    as (_ & (gs' & Hout & _ & _ & Hwin) & _); try reflexivity.
  - apply reachable_run, reachable_initial.
  - exists gs'. split; [exact Hout|exact Hwin].
Defined.

(** ** The [joinRoom] handler *)

Lemma leaveRoom_outputs socketId roomId st o :
  o ∈ (leaveRoom socketId roomId st).2 →
  (∃ e, o = ToRoom roomId e) ∧ ¬ isJoinSuccess o.
Proof.
  unfold leaveRoom. destruct (rooms st !! roomId) as [r|]; simpl;
    [|by intros ?%elem_of_nil].
  repeat case_bool_decide; simpl; rewrite ?elem_of_cons, ?elem_of_nil;
    intros Ho; destruct_or?; try done; subst; (split; [by eexists|]);
    by intros ?.
Qed.

Lemma leavePrevious_outputs sid st o :
  o ∈ (leavePrevious sid st).2 →
  (∃ room e, o = ToRoom room e) ∧ ¬ isJoinSuccess o.
Proof.
  unfold leavePrevious. destruct (playerSockets st !! sid) as [prev|];
    [|by intros ?%elem_of_nil].
  destruct (truthy prev); [|by intros ?%elem_of_nil].
  intros [(e & ->) Hn]%leaveRoom_outputs. split; [by eexists _, _|done].
Qed.

Lemma startGame_spec room r st :
  startGame room r st
  = if bool_decide (length (players r) = 2%nat) then
      let gs := mkGameState (board (gameState r)) "X" active
                            (winner (gameState r)) (moves (gameState r)) in
      (setRooms (insert room (withTimeout (Some (nextTimer st))
                                          (withGameState gs r)))
                (setTimeout room st).1,
       [ToRoom room (EvGameStart (players r) gs)])
    else (setRooms (insert room r) st, []).
Proof. unfold startGame. by case_bool_decide. Qed.

(** C1, as the code has it: a [joinRoom] request that passes validation
    and is accepted into the room (a free place, the mark not taken) makes
    the caller a member, broadcasts [roomUpdate] to the room and, when the
    room now holds two players, [gameStart]; but building the payload of
    [joinSuccess] throws, so the last event is ['Failed to join room'] to
    the caller, and no [joinSuccess] is among the events. *)
Theorem joinRoom_accepted_events cfg now joined sid room nm sym av pr st st1 out1
    st2 r :
  room ≠ "" → nm ≠ "" → sym ≠ "" →
  (jsLength nm ≤ 20)%nat → (jsLength room ≤ 10)%nat →
  leavePrevious sid st = (st1, out1) →
  ensureRoom room (default false pr) now st1 = (st2, r) →
  (length (players r) < maxPlayersPerRoom cfg)%nat →
  (∀ p, p ∈ players r → symbol p ≠ sym) →
  let rq := mkJoin (Some room) (Some (NameString nm)) av (Some sym) pr in
  let player :=
    mkPlayer sid (trim nm)
             (if present av then default "" av else defaultAvatar)
             sym joined false in
  let ps := players r ++ [player] in
  let gs := mkGameState (board (gameState r)) "X" active
                        (winner (gameState r)) (moves (gameState r)) in
  (joinRoom cfg now joined sid rq st).2
  = out1
    ++ [ToRoom room (EvRoomUpdate ps (gameState r) room)]
    ++ (if bool_decide (length ps = 2%nat)
        then [ToRoom room (EvGameStart ps gs)] else [])
    ++ [ToSocket sid (EvError "Failed to join room")]
  ∧ (∀ o, o ∈ (joinRoom cfg now joined sid rq st).2 → ¬ isJoinSuccess o)
  ∧ (∃ r', rooms (joinRoom cfg now joined sid rq st).1 !! room = Some r'
           ∧ players r' = ps)
  ∧ playerSockets (joinRoom cfg now joined sid rq st).1 !! sid = Some room.
Proof.
  intros Hroom Hnm Hsym Hl1 Hl2 Hleave Hens Hfree Hnew rq player ps gs.
  apply truthy_true in Hroom, Hnm, Hsym.
  assert (joinRoom cfg now joined sid rq st
          = ((startGame room (withPlayers ps r)
                        (setPlayerSockets (insert sid room) st2)).1,
             out1 ++ [ToRoom room (EvRoomUpdate ps (gameState r) room)]
             ++ (startGame room (withPlayers ps r)
                           (setPlayerSockets (insert sid room) st2)).2
             ++ [ToSocket sid (EvError "Failed to join room")])) as Heq.
  { unfold joinRoom. simpl. rewrite Hroom, Hnm, Hsym. simpl.
    rewrite !bool_decide_eq_false_2 by lia. simpl.
    rewrite Hleave, Hens. rewrite bool_decide_eq_false_2 by lia.
    apply symbolTaken_false in Hnew. rewrite Hnew.
    by destruct (startGame _ _ _). }
  rewrite Heq, startGame_spec. simpl.
  assert (∀ o, o ∈ out1 → ¬ isJoinSuccess o) as Hout1.
  { intros o Ho. replace out1 with (leavePrevious sid st).2 in Ho
      by by rewrite Hleave.
    by apply leavePrevious_outputs in Ho as [_ ?]. }
  case_bool_decide; simpl; split_and!; try done.
  - intros o. rewrite elem_of_app, !elem_of_cons, elem_of_nil.
    intros Ho; destruct_or?; subst; first [by apply Hout1|by intros ?].
  - rewrite lookup_insert_eq. by eexists.
  - by rewrite lookup_insert_eq.
  - intros o. rewrite elem_of_app, !elem_of_cons, elem_of_nil.
    intros Ho; destruct_or?; subst; first [by apply Hout1|by intros ?].
  - rewrite lookup_insert_eq. by eexists.
  - by rewrite lookup_insert_eq.
Qed.

Lemma joinRoom_accepted_events_witness :
  (joinRoom config 1 1 "a" (join "R1" "Alice" "X") initial).2
  = [ToRoom "R1"
       (EvRoomUpdate [mkPlayer "a" "Alice" defaultAvatar "X" 1 false]
                     (freshGameState waiting) "R1");
     ToSocket "a" (EvError "Failed to join room")].
Proof.
  refine (proj1 (joinRoom_accepted_events config 1 1 "a" "R1" "Alice" "X"
                   None None initial initial []
                   (ensureRoom "R1" false 1 initial).1
                   (ensureRoom "R1" false 1 initial).2
                   _ _ _ _ _ _ _ _ _));
    try done; try (vm_compute; lia).
  intros p Hp. vm_compute in Hp. by apply elem_of_nil in Hp.
Defined.

(** ** Leaving a room *)

Lemma rooms_leaveRoom_other socketId roomId st other :
  other ≠ roomId →
  rooms (leaveRoom socketId roomId st).1 !! other = rooms st !! other.
Proof.
  intros Hne. unfold leaveRoom.
  destruct (rooms st !! roomId) as [r|]; [|done].
  repeat case_bool_decide; simpl;
    rewrite ?lookup_insert_ne, ?lookup_delete_ne, ?rooms_clearRoomTimeout;
    done.
Qed.

(** C6, as the code has it: [leaveRoom], which both [disconnect] and the
    first step of [joinRoom] call on the connection's recorded room, removes
    the players of that connection; if none is left the room is deleted from
    [rooms]; otherwise the room keeps the remaining players as they were,
    an active game becomes finished, and [winner] (with board, turn and
    move count) is left as it was, so it is [null] exactly when it was
    [null] before. *)
Theorem leaveRoom_effect socketId roomId st roomData :
  rooms st !! roomId = Some roomData →
  let rest := filter (λ p, pid p ≠ socketId) (players roomData) in
  let st' := (leaveRoom socketId roomId st).1 in
  (rest = [] → rooms st' !! roomId = None)
  ∧ (rest ≠ [] →
     ∃ r', rooms st' !! roomId = Some r'
       ∧ players r' = rest
       ∧ gameStatus (gameState r')
         = (if bool_decide (gameStatus (gameState roomData) = active)
            then finished else gameStatus (gameState roomData))
       ∧ winner (gameState r') = winner (gameState roomData)
       ∧ board (gameState r') = board (gameState roomData)
       ∧ currentTurn (gameState r') = currentTurn (gameState roomData)
       ∧ moves (gameState r') = moves (gameState roomData))
  ∧ (∀ other, other ≠ roomId → rooms st' !! other = rooms st !! other)
  ∧ (playerSockets st !! socketId = Some roomId → roomId ≠ "" →
     rooms (disconnect socketId st).1 = rooms st'
     ∧ leavePrevious socketId st = leaveRoom socketId roomId st).
Proof.
  intros Hr rest st'. split_and!.
  - intros Hrest. unfold st', leaveRoom. rewrite Hr. fold rest.
    rewrite Hrest. simpl. apply lookup_delete_eq.
  - intros Hrest. unfold st', leaveRoom. rewrite Hr. fold rest.
    rewrite bool_decide_eq_false_2 by (by destruct rest). simpl.
    case_bool_decide; simpl; rewrite lookup_insert_eq; eexists;
      (split; [reflexivity|]); simpl; split_and!; try done.
  - intros other Hne. by apply rooms_leaveRoom_other.
  - intros Hs Hne. apply truthy_true in Hne.
    unfold disconnect, leavePrevious. rewrite Hs, Hne. split; [|done].
    unfold st'. by destruct (leaveRoom socketId roomId st).
Qed.

Lemma leaveRoom_effect_witness :
  rooms (leaveRoom "a" "R1"
           (run config [InJoinRoom 1 1 "a" (join "R1" "Alice" "X")] initial).1).1
    !! "R1" = None.
Proof.
  refine (proj1 (leaveRoom_effect "a" "R1"
                   (run config [InJoinRoom 1 1 "a" (join "R1" "Alice" "X")]
                        initial).1
                   (mkRoom "R1"
                      [mkPlayer "a" "Alice" defaultAvatar "X" 1 false]
                      (freshGameState waiting) 1 false None) _) _);
    reflexivity.
Defined.

(** The claim C6 fails on the winner: Alice (X) wins against Bob, Bob
    disconnects, Carol joins the room, which starts a game on the board and
    winner of the decided one; when Carol disconnects from this active game
    it becomes finished with winner ["X"], not [null]. *)
Lemma leaveRoom_winner_counterexample :
  ∃ r r',
    rooms (run config rejoinAfterWin initial).1 !! "R1" = Some r
    ∧ gameStatus (gameState r) = active
    ∧ length (players r) = 2%nat
    ∧ rooms (disconnect "c" (run config rejoinAfterWin initial).1).1 !! "R1"
      = Some r'
    ∧ length (players r') = 1%nat
    ∧ gameStatus (gameState r') = finished
    ∧ winner (gameState r') = Some "X".
Proof. eexists _, _. split_and!; vm_compute; reflexivity. Qed.

(** ** The inactivity timer *)

Lemma timers_clearRoomTimeout_None r st h :
  timers st !! h = None → timers (clearRoomTimeout r st) !! h = None.
Proof.
  intros Hh. unfold clearRoomTimeout. destruct (timeout r) as [h'|]; [|done].
  simpl. rewrite lookup_delete. by case_decide.
Qed.

Lemma timers_clearRoomTimeout_own r st h :
  timeout r = Some h → timers (clearRoomTimeout r st) !! h = None.
Proof.
  intros Hh. unfold clearRoomTimeout. rewrite Hh. simpl.
  apply lookup_delete_eq.
Qed.

Lemma resetRoom_lookup roomId st r :
  rooms st !! roomId = Some r →
  rooms (resetRoom roomId st) !! roomId
  = Some (mkRoom (rid r) (withReady false <$> players r)
                 (freshGameState
                    (if bool_decide (length (players r) = 2%nat)
                     then active else waiting))
                 (created r) (private r) None).
Proof.
  intros Hr. unfold resetRoom. rewrite Hr. simpl. apply lookup_insert_eq.
Qed.

(** The two paths that cancel the room's timer: a reset, and a move that
    decides the game. *)
Lemma resetRoom_clears_timer roomId st r h :
  rooms st !! roomId = Some r → timeout r = Some h →
  timers (resetRoom roomId st) !! h = None.
Proof.
  intros Hr Hh. unfold resetRoom. rewrite Hr. simpl.
  by apply timers_clearRoomTimeout_own.
Qed.

Lemma makeMove_decided_clears_timer sid room index sym st r i p gs' w h :
  rooms st !! room = Some r →
  findPlayer sid (players r) = Some (i, p) →
  applyMove (gameState r) index sym = MoveDecided gs' w →
  timeout r = Some h →
  timers (makeMove sid room index sym st).1 !! h = None
  ∧ ∃ r', rooms (makeMove sid room index sym st).1 !! room = Some r'
          ∧ timeout r' = None.
Proof.
  intros Hr Hp Ha Hh. unfold makeMove. rewrite Hr, Hp, Ha. simpl.
  split; [by apply timers_clearRoomTimeout_own|].
  rewrite lookup_insert_eq. by eexists.
Qed.

(** C7 fails on abandonment: Alice and Bob join (the timer is armed), Bob
    disconnects.  The game is finished, but [leaveRoom] has cleared no
    timer: the handle is still in the room and still pending, and when it
    fires the room is told of a timeout and reset. *)
Theorem abandonment_leaves_timer_pending :
  (∃ r, rooms (run config (twoJoin ++ [InDisconnect "b"]) initial).1 !! "R1"
        = Some r
        ∧ gameStatus (gameState r) = finished
        ∧ winner (gameState r) = None
        ∧ timeout r = Some 0%nat)
  ∧ timers (run config (twoJoin ++ [InDisconnect "b"]) initial).1 !! 0%nat
    = Some "R1"
  ∧ (gameTimeout 0 (run config (twoJoin ++ [InDisconnect "b"]) initial).1).2
    = [ToRoom "R1" (EvGameTimeout "Game timed out due to inactivity")]
  ∧ (∃ r',
       rooms (gameTimeout 0
                (run config (twoJoin ++ [InDisconnect "b"]) initial).1).1
         !! "R1" = Some r'
       ∧ gameStatus (gameState r') = waiting).
Proof.
  split_and!; try (eexists; split_and!); vm_compute; reflexivity.
Qed.

(** C8, as the code has it: when a pending timer fires for a room, the
    room is told [gameTimeout] and reset: empty board, turn X, no winner,
    no moves, every [ready] flag cleared, the players kept, no timer left
    in the room.  The status after the reset is active when the room holds
    two players and waiting otherwise; in a reachable state of a server of
    capacity at most 2 a game that is still active has its two players, so
    the status after the firing is active. *)
Theorem gameTimeout_resets_room cfg h room st roomData :
  timers st !! h = Some room →
  rooms st !! room = Some roomData →
  (gameTimeout h st).2
  = [ToRoom room (EvGameTimeout "Game timed out due to inactivity")]
  ∧ timers (gameTimeout h st).1 !! h = None
  ∧ (∃ r',
       rooms (gameTimeout h st).1 !! room = Some r'
       ∧ players r' = (withReady false <$> players roomData)
       ∧ roster r' = roster roomData
       ∧ Forall (λ p, ready p = false) (players r')
       ∧ timeout r' = None
       ∧ gameState r'
         = freshGameState
             (if bool_decide (length (players roomData) = 2%nat)
              then active else waiting)
       ∧ ((maxPlayersPerRoom cfg ≤ 2)%nat → reachable cfg st →
          gameStatus (gameState roomData) = active →
          length (players r') = 2%nat
          ∧ gameState r' = mkGameState emptyBoard "X" active None 0)).
Proof.
  intros Hh Hr. unfold gameTimeout. rewrite Hh. simpl.
  split_and!; [done| |].
  - unfold resetRoom. simpl. rewrite Hr. simpl.
    apply timers_clearRoomTimeout_None. simpl. apply lookup_delete_eq.
  - rewrite (resetRoom_lookup room (clearTimeout h st) roomData Hr).
    eexists. split; [reflexivity|]. simpl. split_and!; try done.
    + unfold roster. simpl. apply roster_withReady.
    + apply Forall_fmap, Forall_forall. by intros p _.
    + intros Hmax Hreach Hact. rewrite length_fmap.
      destruct (reachable_ok cfg st Hreach room roomData Hr)
        as [_ _ Hactive _].
      destruct (Hactive Hact) as [Hlen|?]; [|lia].
      by rewrite bool_decide_eq_true_2.
Qed.

Lemma gameTimeout_resets_room_witness :
  (gameTimeout 0 (run config twoJoin initial).1).2
  = [ToRoom "R1" (EvGameTimeout "Game timed out due to inactivity")].
Proof.
  refine (proj1 (gameTimeout_resets_room config 0%nat "R1"
                   (run config twoJoin initial).1
                   (mkRoom "R1"
                      [mkPlayer "a" "Alice" defaultAvatar "X" 1 false;
                       mkPlayer "b" "Bob" defaultAvatar "O" 2 false]
                      (freshGameState active) 1 false (Some 0%nat)) _ _));
    reflexivity.
Defined.

(** The claim C8 fails on the status: the timer fires on the active game
    of Alice and Bob, both stay in the room, and the status after the reset
    is active, not waiting. *)
Lemma gameTimeout_status_counterexample :
  ∃ r r',
    rooms (run config twoJoin initial).1 !! "R1" = Some r
    ∧ gameStatus (gameState r) = active
    ∧ timers (run config twoJoin initial).1 !! 0%nat = Some "R1"
    ∧ rooms (gameTimeout 0 (run config twoJoin initial).1).1 !! "R1"
      = Some r'
    ∧ length (players r') = 2%nat
    ∧ gameStatus (gameState r') = active
    ∧ gameStatus (gameState r') ≠ waiting.
Proof.
  eexists _, _. split_and!; try (vm_compute; reflexivity).
  vm_compute. discriminate.
Qed.

(** ** Rejected requests *)

Lemma leavePrevious_none sid st :
  playerSockets st !! sid = None → leavePrevious sid st = (st, []).
Proof. intros H. unfold leavePrevious. by rewrite H. Qed.

Lemma applyMove_rejected gs index sym :
  (gameStatus gs ≠ active →
   applyMove gs index sym = MoveError "Game is not active")
  ∧ (gameStatus gs = active → currentTurn gs ≠ sym →
     applyMove gs index sym = MoveError "Not your turn")
  ∧ (gameStatus gs = active → currentTurn gs = sym →
     cellAt (board gs) index ≠ Some "" →
     applyMove gs index sym = MoveError "Cell already occupied").
Proof.
  unfold applyMove. split_and!.
  - intros Hs. by rewrite bool_decide_eq_true_2.
  - intros Hs Ht. rewrite bool_decide_eq_false_2 by (by intros ?).
    by rewrite bool_decide_eq_true_2.
  - intros Hs Ht Hc. rewrite !bool_decide_eq_false_2 by (by intros ?).
    by rewrite bool_decide_eq_true_2.
Qed.

Lemma joinRoom_refused_value cfg now joined sid room nm sym av pr st st1
    out1 r :
  room ≠ "" → presentName (Some nm) = true → sym ≠ "" →
  nameTooLong nm = false → (jsLength room ≤ 10)%nat →
  leavePrevious sid st = (st1, out1) →
  rooms st1 !! room = Some r →
  ((maxPlayersPerRoom cfg ≤ length (players r))%nat →
   joinRoom cfg now joined sid (mkJoin (Some room) (Some nm) av (Some sym) pr)
            st
   = (st1, out1 ++ [ToSocket sid (EvRoomFull "Room is full")]))
  ∧ ((length (players r) < maxPlayersPerRoom cfg)%nat →
     (∃ p, p ∈ players r ∧ symbol p = sym) →
     joinRoom cfg now joined sid
              (mkJoin (Some room) (Some nm) av (Some sym) pr) st
     = (st1, out1 ++ [ToSocket sid (EvSymbolTaken "Symbol already taken")])).
Proof.
  intros Hroom Hnm Hsym Hl1 Hl2 Hleave Hr.
  apply truthy_true in Hroom, Hsym.
  unfold joinRoom. cbn [jr_room jr_name jr_symbol jr_isPrivate present].
  rewrite Hroom, Hnm, Hsym. cbn [andb negb default from_option id].
  rewrite Hl1, bool_decide_eq_false_2 by lia. cbn [orb].
  rewrite Hleave. unfold ensureRoom. rewrite Hr.
  split.
  - intros Hfull. by rewrite bool_decide_eq_true_2.
  - intros Hfree Htaken. rewrite bool_decide_eq_false_2 by lia.
    apply symbolTaken_true in Htaken. by rewrite Htaken.
Qed.

(** C2, as the code has it: a request turned down at a guard leaves the
    rooms, the connection map and the timers exactly as they were, and
    nothing is broadcast.  [joinRoom] with missing or over-long fields and
    every refused [makeMove] (unknown room, not a member, game not active,
    out of turn, cell not an empty cell of the board) are answered with one
    [error] event to the calling connection; a [joinRoom] refused for a full
    room or a taken mark, from a connection that is in no room, with one
    [roomFull] or [symbolTaken] event to the calling connection;
    [resetGame], [playerReady] and [chatMessage] on an unknown room or by a
    non-member, and a chat message whose trimmed text has more than 100
    UTF-16 code units, are dropped without any event.  Over-long means a
    name of more than 20 or a room id of more than 10 code units. *)
Theorem rejected_request_is_local cfg st i kind out :
  Rejected cfg st i kind out →
  handle cfg i st = (st, out)
  ∧ (∀ o, o ∈ out → ∃ sid e, origin i = Some sid ∧ o = ToSocket sid e)
  ∧ (length out ≤ 1)%nat.
Proof.
  intros Hrej. split_and!.
  - destruct Hrej as
      [now joined sid rq Hmiss
      |now joined sid room nm sym av pr Hroom Hnm Hsym Hlong
      |now joined sid room nm sym av pr r Hroom Hnm Hsym Hl1 Hl2 Hps Hr
         Hfull
      |now joined sid room nm sym av pr r p Hroom Hnm Hsym Hl1 Hl2 Hps Hr
         Hfree Hin Hp
      |sid room index sym Hr
      |sid room index sym r Hr Hm
      |sid room index sym r Hr Hm Hs
      |sid room index sym r Hr Hm Hs Ht
      |sid room index sym r Hr Hm Hs Ht Hc
      |sid room Hr
      |sid room r Hr Hm
      |sid room Hr
      |sid room r Hr Hm
      |now uuid sid room message Hr
      |now uuid sid room message r Hr Hm
      |now uuid sid room message r Hr Hm Hlong]; simpl.
    + unfold joinRoom. by rewrite Hmiss.
    + apply truthy_true in Hroom, Hsym.
      unfold joinRoom. cbn [jr_room jr_name jr_symbol present].
      rewrite Hroom, Hnm, Hsym. cbn [andb negb default from_option id].
      destruct Hlong as [Hlong|Hlong].
      * by rewrite Hlong.
      * rewrite (bool_decide_eq_true_2 (10 < _)%nat) by done.
        by rewrite orb_true_r.
    + by apply (proj1 (joinRoom_refused_value cfg now joined sid room nm sym
                         av pr st st [] r Hroom Hnm Hsym Hl1 Hl2
                         (leavePrevious_none _ _ Hps) Hr)).
    + apply (proj2 (joinRoom_refused_value cfg now joined sid room nm sym
                      av pr st st [] r Hroom Hnm Hsym Hl1 Hl2
                      (leavePrevious_none _ _ Hps) Hr)); [done|].
      by exists p.
    + unfold makeMove. by rewrite Hr.
    + apply findPlayer_None in Hm. unfold makeMove. by rewrite Hr, Hm.
    + apply findPlayer_member in Hm as (j & p & Hp).
      apply (makeMove_error _ _ _ _ _ _ _ _ _ Hr Hp).
      by apply applyMove_rejected.
    + apply findPlayer_member in Hm as (j & p & Hp).
      apply (makeMove_error _ _ _ _ _ _ _ _ _ Hr Hp).
      by apply applyMove_rejected.
    + apply findPlayer_member in Hm as (j & p & Hp).
      apply (makeMove_error _ _ _ _ _ _ _ _ _ Hr Hp).
      by apply applyMove_rejected.
    + unfold resetGame. by rewrite Hr.
    + apply findPlayer_None in Hm. unfold resetGame. by rewrite Hr, Hm.
    + unfold playerReady. by rewrite Hr.
    + apply findPlayer_None in Hm. unfold playerReady. by rewrite Hr, Hm.
    + unfold chatMessage. by rewrite Hr.
    + apply findPlayer_None in Hm. unfold chatMessage. by rewrite Hr, Hm.
    + apply findPlayer_member in Hm as (j & p & Hp).
      unfold chatMessage. rewrite Hr, Hp.
      by rewrite bool_decide_eq_true_2.
  - intros o Ho. destruct Hrej; simpl;
      try (by apply elem_of_nil in Ho);
      apply list_elem_of_singleton in Ho as ->; by eexists _, _.
  - destruct Hrej; simpl; lia.
Qed.

Lemma rejected_request_is_local_witness :
  handle config (InMakeMove "b" "R1" 4 "O") (run config twoJoin initial).1
  = ((run config twoJoin initial).1,
     [ToSocket "b" (EvError "Not your turn")]).
Proof.
  refine (proj1 (rejected_request_is_local config
                   (run config twoJoin initial).1
                   (InMakeMove "b" "R1" 4 "O") WrongTurn _
                   (rej_move_turn config _ "b" "R1" 4 "O"
                      (mkRoom "R1"
                         [mkPlayer "a" "Alice" defaultAvatar "X" 1 false;
                          mkPlayer "b" "Bob" defaultAvatar "O" 2 false]
                         (freshGameState active) 1 false (Some 0%nat))
                      _ _ _ _))).
  - reflexivity.
  - exists (mkPlayer "b" "Bob" defaultAvatar "O" 2 false).
    split; [|reflexivity]. simpl. right. left.
  - reflexivity.
  - simpl. discriminate.
Defined.

(** The claim C2 fails in three ways.  A [resetGame] for a room that does
    not exist gets no response at all.  A [joinRoom] refused with
    [roomFull] has already taken the caller out of its previous room: Carol,
    alone in [R2], asks for the full room [R1], and [R2] is gone.  And the
    failure inside an accepted [joinRoom] comes after the room was changed
    and [roomUpdate] broadcast. *)
Lemma error_paths_counterexample :
  resetGame "z" "nowhere" initial = (initial, [])
  ∧ (∃ st r2,
       st = (run config
                 (twoJoin ++ [InJoinRoom 3 3 "c" (join "R2" "Carol" "X")])
                 initial).1
       ∧ (joinRoom config 4 4 "c" (join "R1" "Carol" "X") st).2
         = [ToSocket "c" (EvRoomFull "Room is full")]
       ∧ rooms st !! "R2" = Some r2
       ∧ rooms (joinRoom config 4 4 "c" (join "R1" "Carol" "X") st).1 !! "R2"
         = None)
  ∧ (∃ e st',
       joinRoom config 1 1 "a" (join "R1" "Alice" "X") initial
       = (st', [ToRoom "R1" e; ToSocket "a" (EvError "Failed to join room")])
       ∧ rooms st' ≠ rooms initial).
Proof.
  split; [reflexivity|]. split.
  - eexists _, _. split; [reflexivity|].
    split; [vm_compute; reflexivity|].
    split; vm_compute; reflexivity.
  - eexists _, _. split; [vm_compute; reflexivity|].
    intros Heq. apply (f_equal (λ m, m !! "R1")) in Heq.
    vm_compute in Heq. discriminate.
Qed.

(** ** Starting a game on a used board *)

(** [joinRoom] starts a game without clearing the board, so on the server
    a decided board can be played on again, which [legal_play] does not
    cover: O wins the middle row, Bob leaves, Carol joins, and the next move
    of X completes the top row next to the row of O. *)
Remark reopened_board_has_two_lines :
  ∃ r,
    rooms (run config
             (twoJoin
              ++ [InMakeMove "a" "R1" 0 "X"; InMakeMove "b" "R1" 3 "O";
                  InMakeMove "a" "R1" 1 "X"; InMakeMove "b" "R1" 4 "O";
                  InMakeMove "a" "R1" 8 "X"; InMakeMove "b" "R1" 5 "O";
                  InDisconnect "b";
                  InJoinRoom 9 9 "c" (join "R1" "Carol" "O");
                  InMakeMove "a" "R1" 2 "X"])
             initial).1 !! "R1" = Some r
    ∧ board (gameState r) = ["X"; "X"; "X"; "O"; "O"; "O"; ""; ""; "X"]
    ∧ winner (gameState r) = Some "X".
Proof. eexists. split_and!; vm_compute; reflexivity. Qed.

(** ** More on the game helpers *)

Lemma all_marked_iff (b : list string) :
  forallb (λ cell, negb (bool_decide (cell = ""))) b = true ↔ "" ∉ b.
Proof.
  induction b as [|c b IH]; simpl.
  - split; [intros _ H; by apply elem_of_nil in H|done].
  - rewrite andb_true_iff, IH, not_elem_of_cons, negb_true_iff,
      bool_decide_eq_false.
    split; intros [? ?]; split; try done; by intros ?.
Qed.

Lemma firstWinner_no_wins b :
  (∀ s, ¬ wins s b) → firstWinner b winPatterns = None.
Proof.
  intros Hno. destruct (firstWinner b winPatterns) as [x|] eqn:Hf; [|done].
  by destruct (Hno x (firstWinner_Some _ _ _ Hf)).
Qed.

Lemma checkWinner_None_empty_cell b : checkWinner b = None → "" ∈ b.
Proof.
  unfold checkWinner. destruct (firstWinner b winPatterns); [discriminate|].
  destruct (forallb _ b) eqn:Hall; [discriminate|]. intros _.
  destruct (decide ("" ∈ b)) as [|Hnot]; [done|].
  apply all_marked_iff in Hnot. congruence.
Qed.

(** X1: [checkWinner] returns [null] exactly when no line is filled and
    some cell is still empty; when some line is filled it returns a mark
    that fills a line; and when no line is filled and no cell is empty it
    returns ['tie']. *)
Theorem checkWinner_cases b :
  (checkWinner b = None ↔ (∀ s, ¬ wins s b) ∧ "" ∈ b)
  ∧ (∀ s, wins s b → ∃ w, checkWinner b = Some w ∧ wins w b)
  ∧ ((∀ s, ¬ wins s b) → "" ∉ b → checkWinner b = Some "tie").
Proof.
  split_and!.
  - split.
    + intros Hc. split; [intros s; by apply checkWinner_None|].
      by apply checkWinner_None_empty_cell.
    + intros [Hno Hin]. unfold checkWinner.
      rewrite (firstWinner_no_wins _ Hno).
      destruct (forallb _ b) eqn:Hall; [|done].
      by apply all_marked_iff in Hall.
  - intros s. apply wins_checkWinner.
  - intros Hno Hfull. unfold checkWinner.
    rewrite (firstWinner_no_wins _ Hno).
    apply all_marked_iff in Hfull. by rewrite Hfull.
Qed.

Lemma occupied_le b : (occupied b ≤ length b)%nat.
Proof. apply length_filter. Qed.

Lemma occupied_lt b : "" ∈ b → (occupied b < length b)%nat.
Proof.
  unfold occupied. induction b as [|c b IH]; [by intros ?%elem_of_nil|].
  intros [<-|Hin]%elem_of_cons.
  - rewrite filter_cons_False by (by intros ?). simpl.
    pose proof (occupied_le b) as Hle. unfold occupied in Hle. lia.
  - specialize (IH Hin). destruct (decide (c = "")) as [->|Hc].
    + rewrite filter_cons_False by (by intros ?). simpl. lia.
    + rewrite filter_cons_True by done. simpl. lia.
Qed.

Lemma occupied_insert b i s :
  b !! i = Some "" → s ≠ "" → occupied (<[i := s]> b) = S (occupied b).
Proof.
  unfold occupied. revert i. induction b as [|c b IH]; intros i Hi Hs;
    [done|].
  destruct i as [|i]; simpl in *.
  - injection Hi as ->. rewrite filter_cons_True by done.
    by rewrite filter_cons_False by (by intros ?).
  - destruct (decide (c = "")) as [->|Hc].
    + rewrite !filter_cons_False by (by intros ?). by apply IH.
    + rewrite !filter_cons_True by done. simpl. by rewrite IH.
Qed.

Lemma isMark_truthy s : isMark s → s ≠ "".
Proof. by intros [-> | ->]. Qed.

Lemma legal_play_counts gs :
  legal_play gs →
  game_ok gs
  ∧ moves gs = Z.of_nat (occupied (board gs))
  ∧ (gameStatus gs = active →
     "" ∈ board gs
     ∧ currentTurn gs = if Z.even (moves gs) then "X" else "O").
Proof.
  induction 1 as [|gs index sym gs' w _ (Hok & Hm & Ha) Hmove
                  |gs index sym gs' _ (Hok & Hm & Ha) Hmove].
  - split_and!; [apply game_ok_fresh|done|]. intros _. split; [|done].
    by left.
  - pose proof (applyMove_game_ok gs index sym Hok) as Hok'.
    rewrite Hmove in Hok'. destruct Hok' as [Hok' _].
    apply applyMove_decided in Hmove as (Hs & Ht & Hc & _ & ->).
    apply cellAt_Some in Hc as [_ Hc]. simpl.
    split_and!; [done| |discriminate].
    rewrite occupied_insert; [lia|done|].
    rewrite <- Ht. apply isMark_truthy, Hok.
  - pose proof (applyMove_game_ok gs index sym Hok) as Hok'.
    rewrite Hmove in Hok'. destruct Hok' as [Hok' _].
    apply applyMove_continues in Hmove as (Hs & Ht & Hc & Hn & ->).
    apply cellAt_Some in Hc as [_ Hc]. simpl in *.
    destruct (Ha Hs) as [_ Hturn].
    split_and!; [done| |].
    + rewrite occupied_insert; [lia|done|].
      rewrite <- Ht. apply isMark_truthy, Hok.
    + intros _. split.
      * by apply checkWinner_None_empty_cell.
      * rewrite Hturn.
        replace (moves gs + 1) with (Z.succ (moves gs)) by lia.
        rewrite Z.even_succ, <- Z.negb_even.
        by destruct (Z.even (moves gs)).
Qed.

(** X2: in a game played from its start by accepted moves, the move
    counter is the number of marks on the board and never exceeds 9, and
    while the game is active fewer than 9 moves were made and a cell is
    still empty: an accepted move that fills the board always ends the
    game. *)
Theorem legal_play_move_count gs :
  legal_play gs →
  moves gs = Z.of_nat (occupied (board gs))
  ∧ 0 ≤ moves gs ≤ 9
  ∧ (gameStatus gs = active → moves gs < 9 ∧ "" ∈ board gs).
Proof.
  intros Hl. destruct (legal_play_counts gs Hl) as ((_ & _ & Hlen) & Hm & Ha).
  pose proof (occupied_le (board gs)) as Hle.
  split_and!; [done|lia|lia|].
  intros Hs. destruct (Ha Hs) as [Hin _]. split; [|done].
  apply occupied_lt in Hin. lia.
Qed.

Lemma legal_play_move_count_witness :
  legal_play
    (mkGameState ["X"; "X"; "X"; "O"; "O"; ""; ""; ""; ""] "X" finished
                 (Some "X") 5)
  ∧ 5 = Z.of_nat (occupied ["X"; "X"; "X"; "O"; "O"; ""; ""; ""; ""]).
Proof.
  split; [exact legal_play_top_row|].
  exact (proj1 (legal_play_move_count _ legal_play_top_row)).
Defined.

Lemma legal_play_after_first_move :
  legal_play
    (mkGameState ["X"; ""; ""; ""; ""; ""; ""; ""; ""] "O" active None 1).
Proof.
  apply (legal_continues (freshGameState active) 0 "X"); [|reflexivity].
  apply legal_start.
Defined.

(** X3: in a game played from its start by accepted moves, while the game
    is active it is the turn of X after an even number of moves and of O
    after an odd number. *)
Theorem legal_play_turn_parity gs :
  legal_play gs → gameStatus gs = active →
  currentTurn gs = if Z.even (moves gs) then "X" else "O".
Proof.
  intros Hl Hs. by destruct (legal_play_counts gs Hl) as (_ & _ & Ha),
    (Ha Hs).
Qed.

Lemma legal_play_turn_parity_witness :
  legal_play
    (mkGameState ["X"; ""; ""; ""; ""; ""; ""; ""; ""] "O" active None 1)
  ∧ "O" = (if Z.even 1 then "X" else "O").
Proof.
  split; [exact legal_play_after_first_move|].
  exact (legal_play_turn_parity _ legal_play_after_first_move eq_refl).
Defined.

(** ** The move counter on the server *)

Lemma games_counted_insert st room r :
  games_counted st → game_counted (gameState r) →
  games_counted (setRooms (insert room r) st).
Proof.
  intros Hst Hr room' r'. simpl. rewrite lookup_insert.
  case_decide; [by intros [= <-]|]. apply Hst.
Qed.

Lemma games_counted_delete st room :
  games_counted st → games_counted (setRooms (delete room) st).
Proof.
  intros Hst room' r'. simpl. rewrite lookup_delete.
  case_decide; [discriminate|]. apply Hst.
Qed.

Lemma games_counted_rooms st st' :
  rooms st' = rooms st → games_counted st → games_counted st'.
Proof. intros Heq Hst room r. rewrite Heq. apply Hst. Qed.

Lemma game_counted_fresh s : game_counted (freshGameState s).
Proof. split; [done|]. simpl. by intros ->. Qed.

Lemma resetRoom_counted roomId st :
  games_counted st → games_counted (resetRoom roomId st).
Proof.
  intros Hst. unfold resetRoom.
  destruct (rooms st !! roomId) as [r|] eqn:Hr; [|done].
  apply games_counted_insert; [|apply game_counted_fresh].
  eapply games_counted_rooms; [apply rooms_clearRoomTimeout|done].
Qed.

Lemma leaveRoom_counted socketId roomId st :
  games_counted st → games_counted (leaveRoom socketId roomId st).1.
Proof.
  intros Hst. unfold leaveRoom.
  destruct (rooms st !! roomId) as [r|] eqn:Hr; [|done].
  destruct (Hst _ _ Hr) as [Hm Hw].
  case_bool_decide; simpl.
  { apply games_counted_delete.
    eapply games_counted_rooms; [apply rooms_clearRoomTimeout|done]. }
  case_bool_decide; simpl; apply games_counted_insert; done.
Qed.

Lemma applyMove_counted gs index sym :
  game_ok gs → game_counted gs →
  match applyMove gs index sym with
  | MoveError _ => True
  | MoveDecided gs' _ | MoveContinues gs' => game_counted gs'
  end.
Proof.
  intros (Hturn & _ & _) [Hm _].
  destruct (applyMove gs index sym) as [msg|gs' w|gs'] eqn:Ha; [done| |].
  - apply applyMove_decided in Ha as (_ & Ht & Hc & _ & ->).
    apply cellAt_Some in Hc as [_ Hc]. split; simpl; [|discriminate].
    rewrite occupied_insert; [lia|done|].
    rewrite <- Ht. by apply isMark_truthy.
  - apply applyMove_continues in Ha as (Hs & Ht & Hc & _ & ->).
    apply cellAt_Some in Hc as [_ Hc]. split; simpl.
    + rewrite occupied_insert; [lia|done|].
      rewrite <- Ht. by apply isMark_truthy.
    + rewrite Hs. discriminate.
Qed.

Lemma handle_counted cfg i st :
  server_ok cfg st → games_counted st → games_counted (handle cfg i st).1.
Proof.
  intros Hok Hst. destruct i; simpl.
  - unfold joinRoom. destruct (negb _); [done|].
    destruct (_ || _); [done|].
    assert (games_counted (leavePrevious sid st).1) as Hst1.
    { unfold leavePrevious. destruct (playerSockets st !! sid) as [prev|];
        [|done].
      destruct (truthy prev); [|done]. by apply leaveRoom_counted. }
    destruct (leavePrevious sid st) as [st1 out1]. simpl in Hst1.
    assert (games_counted
              (ensureRoom (default "" (jr_room rq))
                 (default false (jr_isPrivate rq)) now st1).1
            ∧ game_counted
                (gameState
                   (ensureRoom (default "" (jr_room rq))
                      (default false (jr_isPrivate rq)) now st1).2))
      as [Hst2 Hr].
    { unfold ensureRoom.
      destruct (rooms st1 !! default "" (jr_room rq)) as [r|] eqn:Hr; simpl.
      - split; [done|]. exact (Hst1 _ _ Hr).
      - split; [|apply game_counted_fresh].
        apply games_counted_insert; [done|apply game_counted_fresh]. }
    destruct (ensureRoom _ _ now st1) as [st2 r]. simpl in Hst2, Hr.
    case_bool_decide; [done|].
    destruct (existsb _ (players r)); [done|].
    destruct (trimName _) as [e|trimmed];
      [by eapply games_counted_rooms|].
    match goal with
    | |- context [startGame ?room ?r1 ?st3] =>
        assert (games_counted (startGame room r1 st3).1) as Hst4;
        [|by destruct (startGame room r1 st3), (joinSuccessPayload _ _)]
    end.
    rewrite startGame_spec. destruct Hr as [Hm Hw].
    case_bool_decide; simpl; apply games_counted_insert; done.
  - unfold makeMove. destruct (rooms st !! room) as [r|] eqn:Hr; [|done].
    destruct (findPlayer sid (players r)) as [[j p]|]; [|done].
    pose proof (applyMove_counted (gameState r) index sym
                  (ok_game _ _ (Hok _ _ Hr)) (Hst _ _ Hr)) as Hm.
    destruct (applyMove (gameState r) index sym); simpl; [done| |];
      apply games_counted_insert; try done.
    eapply games_counted_rooms; [apply rooms_clearRoomTimeout|done].
  - unfold resetGame. destruct (rooms st !! room) as [r|]; [|done].
    destruct (findPlayer sid (players r)) as [[j p]|]; [|done].
    destruct (rooms (resetRoom room st) !! room); by apply resetRoom_counted.
  - unfold playerReady. destruct (rooms st !! room) as [r|] eqn:Hr; [|done].
    destruct (findPlayer sid (players r)) as [[j p]|]; [|done].
    simpl. apply games_counted_insert; [done|]. exact (Hst _ _ Hr).
  - by rewrite chatMessage_state.
  - unfold disconnect. destruct (playerSockets st !! sid) as [room|];
      [|done].
    destruct (truthy room); [|done].
    pose proof (leaveRoom_counted sid room st Hst) as Hl.
    by destruct (leaveRoom sid room st).
  - unfold gameTimeout. destruct (timers st !! h) as [room|]; [|done].
    by apply resetRoom_counted.
  - intros room r H. simpl in H.
    apply map_lookup_filter_Some in H as [H _]. by apply (Hst room).
Qed.

Lemma reachable_counted cfg st : reachable cfg st → games_counted st.
Proof.
  induction 1 as [|i st Hreach IH].
  - intros room r H. simpl in H. by rewrite lookup_empty in H.
  - apply handle_counted; [by apply reachable_ok|done].
Qed.

(** X4: in every reachable state of the server, the move counter of each
    room is the number of marks on its board, so it lies between 0 and 9;
    and a room whose status is waiting holds a new game: empty board, turn
    of X, no winner, no moves. *)
Theorem reachable_move_count cfg st room r :
  reachable cfg st → rooms st !! room = Some r →
  moves (gameState r) = Z.of_nat (occupied (board (gameState r)))
  ∧ 0 ≤ moves (gameState r) ≤ 9
  ∧ (gameStatus (gameState r) = waiting →
     gameState r = mkGameState emptyBoard "X" waiting None 0).
Proof.
  intros Hreach Hr.
  destruct (reachable_counted cfg st Hreach room r Hr) as [Hm Hw].
  destruct (reachable_ok cfg st Hreach room r Hr) as [_ _ _ (_ & _ & Hlen)].
  pose proof (occupied_le (board (gameState r))) as Hle.
  split_and!; [done|lia|lia|done].
Qed.

Lemma reachable_move_count_witness :
  ∃ r,
    rooms (run config (twoJoin ++ topRow) initial).1 !! "R1" = Some r
    ∧ moves (gameState r) = Z.of_nat (occupied (board (gameState r))).
Proof.
  eexists. split; [vm_compute; reflexivity|].
  refine (proj1 (reachable_move_count config
                   (run config (twoJoin ++ topRow) initial).1 "R1" _ _ _)).
  - apply reachable_run, reachable_initial.
  - vm_compute. reflexivity.
Defined.

(** ** Rooms and the connection map *)

Lemma member_pids sid r : member sid r ↔ sid ∈ pids r.
Proof.
  unfold member, pids. rewrite list_elem_of_fmap. split.
  - intros (p & Hin & <-). by exists p.
  - intros (p & -> & Hin). by exists p.
Qed.

Lemma pids_nil r : pids r = [] ↔ players r = [].
Proof. unfold pids. by destruct (players r). Qed.

Lemma playerSockets_clearRoomTimeout r st :
  playerSockets (clearRoomTimeout r st) = playerSockets st.
Proof. unfold clearRoomTimeout. by destruct (timeout r). Qed.

Lemma same_members_refl st st' :
  rooms st' = rooms st → playerSockets st' = playerSockets st →
  same_members st st'.
Proof.
  intros Hr Hp. split; [done|]. intros room r' H. exists r'.
  by rewrite <- Hr.
Qed.

Lemma same_members_insert st st1 room r r' :
  rooms st1 = rooms st → playerSockets st1 = playerSockets st →
  rooms st !! room = Some r → rid r' = rid r → pids r' = pids r →
  same_members st (setRooms (insert room r') st1).
Proof.
  intros Hrooms Hps Hr Hrid Hpids. split; [done|].
  intros room' r''. simpl. rewrite Hrooms, lookup_insert.
  case_decide as Hk.
  - intros [= <-]. exists r. by rewrite <- Hk.
  - intros Hl. by exists r''.
Qed.

Lemma same_members_ok cfg st st' :
  same_members st st' → members_ok cfg st → members_ok cfg st'.
Proof.
  intros [Hps Hrooms] [Hm Ht]. split.
  - intros room r' Hr'. destruct (Hrooms _ _ Hr') as (r & Hr & Hrid & Hpids).
    destruct (Hm _ _ Hr) as [Hkey Hmap Hnd].
    split; rewrite ?Hps, ?Hrid, ?Hpids; done.
  - intros sid room. rewrite Hps. apply Ht.
Qed.

Lemma pids_withReady b (ps : list Player) :
  pid <$> (withReady b <$> ps) = pid <$> ps.
Proof. rewrite <- list_fmap_compose. by apply list_fmap_ext. Qed.

Lemma resetRoom_same_members roomId st : same_members st (resetRoom roomId st).
Proof.
  unfold resetRoom. destruct (rooms st !! roomId) as [r|] eqn:Hr.
  - eapply same_members_insert;
      [apply rooms_clearRoomTimeout|apply playerSockets_clearRoomTimeout
      |done|done|].
    unfold pids. simpl. apply pids_withReady.
  - by apply same_members_refl.
Qed.

Lemma same_members_trans st1 st2 st3 :
  same_members st1 st2 → same_members st2 st3 → same_members st1 st3.
Proof.
  intros [Hp12 H12] [Hp23 H23]. split; [congruence|].
  intros room r3 H3.
  destruct (H23 _ _ H3) as (r2 & H2 & Hrid2 & Hpids2).
  destruct (H12 _ _ H2) as (r1 & H1 & Hrid1 & Hpids1).
  exists r1. split_and!; [done|congruence|congruence].
Qed.

(** The handlers that neither add nor remove a player. *)
Lemma handle_same_members cfg i st :
  match i with
  | InJoinRoom _ _ _ _ | InDisconnect _ => True
  | _ => same_members st (handle cfg i st).1
  end.
Proof.
  destruct i; simpl; try done.
  - unfold makeMove. destruct (rooms st !! room) as [r|] eqn:Hr;
      [|by apply same_members_refl].
    destruct (findPlayer sid (players r)) as [[j p]|];
      [|by apply same_members_refl].
    destruct (applyMove _ _ _); simpl.
    + by apply same_members_refl.
    + eapply same_members_insert;
        [apply rooms_clearRoomTimeout|apply playerSockets_clearRoomTimeout
        |done|done|done].
    + by eapply same_members_insert.
  - unfold resetGame. destruct (rooms st !! room) as [r|] eqn:Hr;
      [|by apply same_members_refl].
    destruct (findPlayer sid (players r)) as [[j p]|];
      [|by apply same_members_refl].
    destruct (rooms (resetRoom room st) !! room);
      apply resetRoom_same_members.
  - unfold playerReady. destruct (rooms st !! room) as [r|] eqn:Hr;
      [|by apply same_members_refl].
    destruct (findPlayer sid (players r)) as [[j p]|] eqn:Hp;
      [|by apply same_members_refl].
    apply findPlayer_Some in Hp as [Hj _]. simpl.
    eapply same_members_insert; [done|done|done|done|].
    unfold pids. simpl. rewrite list_fmap_insert. simpl.
    by rewrite list_insert_id by (by rewrite list_lookup_fmap, Hj).
  - rewrite chatMessage_state. by apply same_members_refl.
  - unfold gameTimeout. destruct (timers st !! h) as [room|];
      [|by apply same_members_refl].
    simpl. apply (same_members_trans _ (clearTimeout h st));
      [by apply same_members_refl|apply resetRoom_same_members].
  - split; [done|]. intros room r' H. simpl in H.
    apply map_lookup_filter_Some in H as [H _]. by exists r'.
Qed.

Lemma members_ok_insert cfg st room r :
  members_ok cfg st → room_members_ok cfg (playerSockets st) room r →
  members_ok cfg (setRooms (insert room r) st).
Proof.
  intros [Hm Ht] Hr. split; [|done]. intros k r'. simpl.
  rewrite lookup_insert. case_decide as Hk; [|apply Hm].
  intros [= <-]. by subst k.
Qed.

Lemma leaveRoom_members cfg sid room st :
  members_ok cfg st →
  members_ok cfg (leaveRoom sid room st).1
  ∧ playerSockets (leaveRoom sid room st).1 = playerSockets st
  ∧ (∀ r, rooms (leaveRoom sid room st).1 !! room = Some r → sid ∉ pids r)
  ∧ (∀ other r, other ≠ room →
       rooms (leaveRoom sid room st).1 !! other = Some r →
       rooms st !! other = Some r).
Proof.
  intros Hok. pose proof Hok as [Hm Ht].
  cut (members_ok cfg (leaveRoom sid room st).1
       ∧ playerSockets (leaveRoom sid room st).1 = playerSockets st
       ∧ (∀ r, rooms (leaveRoom sid room st).1 !! room = Some r →
            sid ∉ pids r)).
  { intros (? & ? & ?). split_and!; try done.
    intros other r Hne. by rewrite rooms_leaveRoom_other. }
  unfold leaveRoom.
  destruct (rooms st !! room) as [r0|] eqn:Hr0; simpl.
  2: { split; [done|]. split; [done|]. intros r Hr. congruence. }
  destruct (Hm _ _ Hr0) as [Hkey Hmap Hnd].
  set (rest := filter (λ p, pid p ≠ sid) (players r0)) in *.
  assert (∀ s, s ∈ pid <$> rest → s ∈ pids r0 ∧ s ≠ sid) as Hrest.
  { intros s (p & -> & Hp)%list_elem_of_fmap.
    apply list_elem_of_filter in Hp as [Hp Hin]. split; [|done].
    apply list_elem_of_fmap. by exists p. }
  assert (NoDup (pid <$> rest)) as Hnd'.
  { eapply sublist_NoDup; [exact Hnd|]. apply fmap_sublist, sublist_filter. }
  case_bool_decide as Hlen; simpl.
  - split; [|split; [apply playerSockets_clearRoomTimeout|]].
    + split; [|simpl; by rewrite playerSockets_clearRoomTimeout].
      intros k r. simpl.
      rewrite lookup_delete, rooms_clearRoomTimeout,
        playerSockets_clearRoomTimeout.
      case_decide; [discriminate|]. apply Hm.
    + intros r. by rewrite lookup_delete_eq.
  - assert (rest ≠ []) as Hne' by (by destruct rest).
    assert (∀ gs, room_members_ok cfg (playerSockets st) room
                    (withGameState gs (withPlayers rest r0))) as Hroom.
    { intros gs. split; simpl; [done| |done].
      intros s Hs. apply Hmap. by apply Hrest. }
    assert (∀ gs r, Some (withGameState gs (withPlayers rest r0)) = Some r →
                    sid ∉ pids r) as Hgone.
    { intros gs r [= <-] Hin. by destruct (Hrest _ Hin). }
    case_bool_decide; simpl.
    + split; [apply members_ok_insert; [done|apply Hroom]|].
      split; [done|].
      intros r. rewrite lookup_insert_eq. apply Hgone.
    + split; [apply members_ok_insert;
                [done|apply (Hroom (gameState r0))]|].
      split; [done|].
      intros r. rewrite lookup_insert_eq. apply (Hgone (gameState r0)).
Qed.

Lemma leavePrevious_members cfg sid st :
  members_ok cfg st →
  members_ok cfg (leavePrevious sid st).1
  ∧ playerSockets (leavePrevious sid st).1 = playerSockets st
  ∧ (∀ room r, rooms (leavePrevious sid st).1 !! room = Some r →
       sid ∉ pids r).
Proof.
  intros Hok. pose proof Hok as [Hm Ht]. unfold leavePrevious.
  destruct (playerSockets st !! sid) as [prev|] eqn:Hps.
  - rewrite (proj2 (truthy_true prev)) by by eapply Ht.
    destruct (leaveRoom_members cfg sid prev st Hok)
      as (Hok' & Hps' & Hprev & Hother).
    split_and!; [done|done|]. intros room r Hr.
    destruct (decide (room = prev)) as [->|Hne]; [by apply Hprev|].
    intros Hin. apply Hother in Hr; [|done].
    pose proof (mo_map _ _ _ _ (Hm _ _ Hr) _ Hin). congruence.
  - split_and!; [done|done|]. intros room r Hr Hin.
    pose proof (mo_map _ _ _ _ (Hm _ _ Hr) _ Hin). congruence.
Qed.

Lemma members_ok_record cfg st sid room :
  members_ok cfg st → room ≠ "" →
  (∀ k r, rooms st !! k = Some r → sid ∉ pids r) →
  members_ok cfg (setPlayerSockets (insert sid room) st).
Proof.
  intros [Hm Ht] Hroom Hgone. split; simpl.
  - intros k r Hr. destruct (Hm _ _ Hr) as [Hkey Hmap Hnd].
    split; try done. intros s Hs. rewrite lookup_insert_ne;
      [by apply Hmap|]. intros <-. by eapply Hgone.
  - intros s k. rewrite lookup_insert. case_decide.
    + by intros [= <-].
    + apply Ht.
Qed.

Lemma present_truthy o : present o = true → default "" o ≠ "".
Proof. destruct o as [s|]; simpl; [by intros ?%truthy_true|discriminate]. Qed.

(** The end of an accepted [joinRoom]: the caller is recorded for the room
    and appended to its players, then the game is started if two players
    are there. *)
Lemma join_push_members cfg st2 room r sid player :
  pid player = sid → room ≠ "" →
  (∀ k r', k ≠ room → rooms st2 !! k = Some r' →
     room_members_ok cfg (playerSockets st2) k r' ∧ sid ∉ pids r') →
  rid r = room → sid ∉ pids r → NoDup (pids r) →
  (∀ s, s ∈ pids r → playerSockets st2 !! s = Some room) →
  (∀ s k, playerSockets st2 !! s = Some k → k ≠ "") →
  members_ok cfg
    (startGame room (withPlayers (players r ++ [player]) r)
               (setPlayerSockets (insert sid room) st2)).1.
Proof.
  intros Hpid Hroom Hothers Hrid Hnew Hnd Hmap Ht.
  assert (∀ gs t,
            room_members_ok cfg (<[sid := room]> (playerSockets st2)) room
              (withTimeout t
                 (withGameState gs
                    (withPlayers (players r ++ [player]) r)))) as Hr.
  { intros gs t. split; simpl; [done| |].
    - unfold pids. simpl. rewrite fmap_app. simpl. rewrite Hpid.
      intros s [Hs|Hs%list_elem_of_singleton]%elem_of_app.
      + rewrite lookup_insert_ne; [by apply Hmap|].
        intros <-. by apply Hnew.
      + subst s. apply lookup_insert_eq.
    - unfold pids. simpl. rewrite fmap_app. simpl. rewrite Hpid.
      apply NoDup_app. split_and!; [done| |apply NoDup_singleton].
      intros s Hs ->%list_elem_of_singleton. by apply Hnew. }
  assert (∀ r1, room_members_ok cfg (<[sid := room]> (playerSockets st2))
                  room r1 →
                members_ok cfg
                  (setRooms (insert room r1)
                     (setPlayerSockets (insert sid room) st2))) as Hfinal.
  { intros r1 Hr1. split; simpl.
    - intros k r'. rewrite lookup_insert. case_decide as Hk.
      + intros [= <-]. by subst k.
      + intros Hr'. destruct (Hothers _ _ (not_eq_sym Hk) Hr')
          as [[Hkey Hmap' Hnd'] Hnot].
        split; try done. intros s Hs. rewrite lookup_insert_ne;
          [by apply Hmap'|]. intros <-. by apply Hnot.
    - intros s k. rewrite lookup_insert. case_decide.
      + by intros [= <-].
      + apply Ht. }
  rewrite startGame_spec. case_bool_decide; simpl.
  - apply (Hfinal (withTimeout _ (withGameState _ _))), Hr.
  - apply (Hfinal _ (Hr (gameState r) (timeout r))).
Qed.

Lemma joinRoom_members cfg now joined sid rq st :
  members_ok cfg st → members_ok cfg (joinRoom cfg now joined sid rq st).1.
Proof.
  intros Hok. unfold joinRoom.
  destruct (negb _) eqn:Hv; [done|].
  apply negb_false_iff in Hv.
  apply andb_true_iff in Hv as [Hv _].
  apply andb_true_iff in Hv as [Hroom%present_truthy _].
  destruct (_ || _); [done|].
  destruct (leavePrevious_members cfg sid st Hok) as (Hok1 & Hps1 & Hgone).
  destruct (leavePrevious sid st) as [st1 out1]. simpl in Hok1, Hps1, Hgone.
  pose proof Hok1 as [Hm1 Ht1].
  set (room := default "" (jr_room rq)) in *.
  unfold ensureRoom.
  destruct (rooms st1 !! room) as [r|] eqn:Hr; cbv beta iota zeta.
  - case_bool_decide; [done|].
    destruct (existsb _ (players r)); [done|].
    destruct (Hm1 _ _ Hr) as [Hkey Hmap Hnd].
    destruct (trimName _) as [e|trimmed].
    { apply members_ok_record; [done|done|]. intros k r'. apply Hgone. }
    match goal with
    | |- context [startGame ?rm ?r1 ?st3] =>
        assert (members_ok cfg (startGame rm r1 st3).1) as Hfinal;
        [|by destruct (startGame rm r1 st3), (joinSuccessPayload _ _)]
    end.
    apply join_push_members; try done; [|by eapply Hgone].
    intros k r' Hk Hr'. split; [by apply Hm1|by eapply Hgone].
  - case_bool_decide as Hfull.
    { simpl. apply members_ok_insert; [done|].
      split; simpl; [done| |constructor].
      intros s Hs. by apply elem_of_nil in Hs. }
    destruct (trimName _) as [e|trimmed].
    { apply members_ok_record; [|done|].
      - apply members_ok_insert; [done|].
        split; simpl; [done| |constructor].
        intros s Hs. by apply elem_of_nil in Hs.
      - intros k r'. simpl. rewrite lookup_insert. case_decide.
        + intros [= <-]. simpl. by intros ?%elem_of_nil.
        + apply Hgone. }
    match goal with
    | |- context [startGame ?rm ?r1 ?st3] =>
        assert (members_ok cfg (startGame rm r1 st3).1) as Hfinal;
        [|by destruct (startGame rm r1 st3), (joinSuccessPayload _ _)]
    end.
    apply (join_push_members cfg _ room
             (mkRoom room [] (freshGameState waiting) now
                     (default false (jr_isPrivate rq)) None));
      try done.
    + intros k r' Hk. simpl. rewrite lookup_insert_ne by done.
      intros Hr'. split; [by apply Hm1|by eapply Hgone].
    + by intros ?%elem_of_nil.
    + constructor.
    + by intros s ?%elem_of_nil.
Qed.

Lemma disconnect_members cfg sid st :
  members_ok cfg st →
  members_ok cfg (disconnect sid st).1
  ∧ playerSockets (disconnect sid st).1 !! sid = None
  ∧ (∀ room r, rooms (disconnect sid st).1 !! room = Some r →
       sid ∉ pids r).
Proof.
  intros Hok.
  destruct (leavePrevious_members cfg sid st Hok) as (Hok1 & Hps1 & Hgone).
  pose proof Hok as [Hm Ht]. unfold disconnect, leavePrevious in *.
  destruct (playerSockets st !! sid) as [room|] eqn:Hps; [|done].
  rewrite (proj2 (truthy_true room)) in * by by eapply Ht.
  destruct (leaveRoom sid room st) as [st1 out]. simpl in *.
  destruct Hok1 as [Hm1 Ht1]. split_and!.
  - split; simpl.
    + intros k r Hr. destruct (Hm1 _ _ Hr) as [Hkey Hmap Hnd].
      split; try done. intros s Hs. rewrite lookup_delete_ne;
        [by apply Hmap|]. intros <-. by eapply Hgone.
    + intros s k. rewrite lookup_delete. case_decide; [discriminate|].
      apply Ht1.
  - apply lookup_delete_eq.
  - done.
Qed.

Lemma handle_members cfg i st :
  members_ok cfg st → members_ok cfg (handle cfg i st).1.
Proof.
  intros Hok. pose proof (handle_same_members cfg i st) as Hsame.
  destruct i; try (by eapply same_members_ok).
  - by apply joinRoom_members.
  - by apply disconnect_members.
Qed.

Lemma reachable_members cfg st : reachable cfg st → members_ok cfg st.
Proof.
  induction 1 as [|i st _ IH]; [|by apply handle_members].
  split.
  - intros room r H. simpl in H. by rewrite lookup_empty in H.
  - intros sid room H. simpl in H. by rewrite lookup_empty in H.
Qed.

(** X5: in every reachable state a connection is a player of at most one
    room, and at most once in it; that room is stored under its own id and
    is the one [playerSockets] records for the connection. *)
Theorem connection_in_one_room cfg st sid room1 r1 room2 r2 :
  reachable cfg st →
  rooms st !! room1 = Some r1 → member sid r1 →
  rooms st !! room2 = Some r2 → member sid r2 →
  room1 = room2
  ∧ playerSockets st !! sid = Some room1
  ∧ rid r1 = room1
  ∧ NoDup (pids r1).
Proof.
  intros Hreach Hr1 Hm1%member_pids Hr2 Hm2%member_pids.
  destruct (reachable_members cfg st Hreach) as [Hm _].
  destruct (Hm _ _ Hr1) as [Hkey1 Hmap1 Hnd1].
  destruct (Hm _ _ Hr2) as [_ Hmap2 _].
  specialize (Hmap1 _ Hm1). specialize (Hmap2 _ Hm2).
  split_and!; try done. congruence.
Qed.

Lemma connection_in_one_room_witness :
  playerSockets (run config twoJoin initial).1 !! "a" = Some "R1".
Proof.
  refine (proj1 (proj2
    (connection_in_one_room config (run config twoJoin initial).1 "a"
       "R1"
       (mkRoom "R1"
          [mkPlayer "a" "Alice" defaultAvatar "X" 1 false;
           mkPlayer "b" "Bob" defaultAvatar "O" 2 false]
          (freshGameState active) 1 false (Some 0%nat))
       "R1"
       (mkRoom "R1"
          [mkPlayer "a" "Alice" defaultAvatar "X" 1 false;
           mkPlayer "b" "Bob" defaultAvatar "O" 2 false]
          (freshGameState active) 1 false (Some 0%nat))
       _ _ _ _ _))).
  - apply reachable_run, reachable_initial.
  - reflexivity.
  - exists (mkPlayer "a" "Alice" defaultAvatar "X" 1 false).
    split; [left|reflexivity].
  - reflexivity.
  - exists (mkPlayer "a" "Alice" defaultAvatar "X" 1 false).
    split; [left|reflexivity].
Defined.

(** X6: after the [disconnect] handler has run for a connection in a
    reachable state, [playerSockets] has no entry for the connection and no
    room has it as a player. *)
Theorem disconnect_removes_connection cfg sid st :
  reachable cfg st →
  playerSockets (disconnect sid st).1 !! sid = None
  ∧ (∀ room r, rooms (disconnect sid st).1 !! room = Some r →
       ¬ member sid r).
Proof.
  intros Hreach.
  destruct (disconnect_members cfg sid st (reachable_members _ _ Hreach))
    as (_ & Hps & Hgone).
  split; [done|]. intros room r Hr Hm%member_pids. by eapply Hgone.
Qed.

Lemma disconnect_removes_connection_witness :
  playerSockets (disconnect "b" (run config twoJoin initial).1).1 !! "b"
  = None.
Proof.
  refine (proj1 (disconnect_removes_connection config "b"
                   (run config twoJoin initial).1 _)).
  apply reachable_run, reachable_initial.
Defined.

(** ** Rooms without players *)

Lemma empty_rooms_new_insert st room r :
  empty_rooms_new st →
  (players r = [] → gameState r = freshGameState waiting ∧ timeout r = None) →
  empty_rooms_new (setRooms (insert room r) st).
Proof.
  intros Hst Hr k r'. simpl. rewrite lookup_insert.
  case_decide; [by intros [= <-]|]. apply Hst.
Qed.

Lemma empty_rooms_new_delete st room :
  empty_rooms_new st → empty_rooms_new (setRooms (delete room) st).
Proof.
  intros Hst k r'. simpl. rewrite lookup_delete.
  case_decide; [discriminate|]. apply Hst.
Qed.

Lemma empty_rooms_new_rooms st st' :
  rooms st' = rooms st → empty_rooms_new st → empty_rooms_new st'.
Proof. intros Heq Hst k r. rewrite Heq. apply Hst. Qed.

Lemma resetRoom_empty_new roomId st :
  empty_rooms_new st → empty_rooms_new (resetRoom roomId st).
Proof.
  intros Hst. unfold resetRoom.
  destruct (rooms st !! roomId) as [r|] eqn:Hr; [|done].
  apply empty_rooms_new_insert.
  { eapply empty_rooms_new_rooms; [apply rooms_clearRoomTimeout|done]. }
  simpl. intros Hnil%fmap_nil_inv. by rewrite Hnil.
Qed.

Lemma leaveRoom_empty_new socketId roomId st :
  empty_rooms_new st → empty_rooms_new (leaveRoom socketId roomId st).1.
Proof.
  intros Hst. unfold leaveRoom.
  destruct (rooms st !! roomId) as [r|] eqn:Hr; [|done].
  case_bool_decide as Hlen; simpl.
  { apply empty_rooms_new_delete.
    eapply empty_rooms_new_rooms; [apply rooms_clearRoomTimeout|done]. }
  case_bool_decide; simpl; apply empty_rooms_new_insert; try done;
    simpl; intros Hnil; by rewrite Hnil in Hlen.
Qed.

Lemma findPlayer_nonempty sid (ps : list Player) i p :
  findPlayer sid ps = Some (i, p) → ps ≠ [].
Proof. intros [Hi _]%findPlayer_Some ->. by rewrite lookup_nil in Hi. Qed.

Lemma handle_empty_new cfg i st :
  empty_rooms_new st → empty_rooms_new (handle cfg i st).1.
Proof.
  intros Hst. destruct i; simpl.
  - unfold joinRoom. destruct (negb _); [done|].
    destruct (_ || _); [done|].
    assert (empty_rooms_new (leavePrevious sid st).1) as Hst1.
    { unfold leavePrevious. destruct (playerSockets st !! sid) as [prev|];
        [|done].
      destruct (truthy prev); [|done]. by apply leaveRoom_empty_new. }
    destruct (leavePrevious sid st) as [st1 out1]. simpl in Hst1.
    assert (empty_rooms_new
              (ensureRoom (default "" (jr_room rq))
                 (default false (jr_isPrivate rq)) now st1).1) as Hst2.
    { unfold ensureRoom.
      destruct (rooms st1 !! default "" (jr_room rq)); simpl; [done|].
      by apply empty_rooms_new_insert. }
    destruct (ensureRoom _ _ now st1) as [st2 r]. simpl in Hst2.
    case_bool_decide; [done|].
    destruct (existsb _ (players r)); [done|].
    destruct (trimName _) as [e|trimmed];
      [by eapply empty_rooms_new_rooms|].
    match goal with
    | |- context [startGame ?room ?r1 ?st3] =>
        assert (empty_rooms_new (startGame room r1 st3).1) as Hst4;
        [|by destruct (startGame room r1 st3), (joinSuccessPayload _ _)]
    end.
    rewrite startGame_spec.
    case_bool_decide; simpl; apply empty_rooms_new_insert; try done;
      simpl; intros Hnil; by destruct (players r).
  - unfold makeMove. destruct (rooms st !! room) as [r|] eqn:Hr; [|done].
    destruct (findPlayer sid (players r)) as [[j p]|] eqn:Hp; [|done].
    apply findPlayer_nonempty in Hp.
    destruct (applyMove (gameState r) index sym); simpl; [done| |];
      apply empty_rooms_new_insert; try done.
    eapply empty_rooms_new_rooms; [apply rooms_clearRoomTimeout|done].
  - unfold resetGame. destruct (rooms st !! room) as [r|]; [|done].
    destruct (findPlayer sid (players r)) as [[j p]|]; [|done].
    destruct (rooms (resetRoom room st) !! room);
      by apply resetRoom_empty_new.
  - unfold playerReady. destruct (rooms st !! room) as [r|] eqn:Hr; [|done].
    destruct (findPlayer sid (players r)) as [[j p]|] eqn:Hp; [|done].
    apply findPlayer_nonempty in Hp.
    simpl. apply empty_rooms_new_insert; [done|]. simpl.
    intros Hnil. apply (f_equal length) in Hnil.
    rewrite length_insert in Hnil. by destruct (players r).
  - by rewrite chatMessage_state.
  - unfold disconnect. destruct (playerSockets st !! sid) as [room|];
      [|done].
    destruct (truthy room); [|done].
    pose proof (leaveRoom_empty_new sid room st Hst) as Hl.
    by destruct (leaveRoom sid room st).
  - unfold gameTimeout. destruct (timers st !! h) as [room|]; [|done].
    by apply resetRoom_empty_new.
  - intros room r H. simpl in H.
    apply map_lookup_filter_Some in H as [H _]. by apply (Hst room).
Qed.

Lemma reachable_empty_new cfg st : reachable cfg st → empty_rooms_new st.
Proof.
  induction 1 as [|i st _ IH]; [|by apply handle_empty_new].
  intros room r H. simpl in H. by rewrite lookup_empty in H.
Qed.

Lemma isStale_true now r :
  isStale now r = true
  ↔ inactiveThreshold < now - created r ∧ players r = [].
Proof.
  unfold isStale. rewrite andb_true_iff, !bool_decide_eq_true.
  split; intros [? Hp]; split; try done.
  - by destruct (players r).
  - by rewrite Hp.
Qed.

Lemma omap_all_None {A B} (f : A → option B) (l : list A) :
  (∀ x, x ∈ l → f x = None) → omap f l = [].
Proof.
  induction l as [|x l IH]; intros Hl; [done|]. simpl.
  rewrite (Hl x) by left. apply IH. intros y Hy. apply Hl. by right.
Qed.

(** X7: the periodic cleanup deletes exactly the rooms that have no
    player and were created more than 30 minutes (1800000 ms) before the
    given time, and keeps every other room as it is: a room with a player is
    kept however old, an empty room until it is older than that.  It leaves
    [playerSockets] alone.  In a reachable state a room without players has
    no timer, so the cleanup cancels no pending timer. *)
Theorem cleanup_removes_stale_empty_rooms cfg now st :
  reachable cfg st →
  (∀ k, rooms (cleanup now st) !! k
        = match rooms st !! k with
          | Some r =>
              if bool_decide (30 * 60 * 1000 < now - created r
                              ∧ players r = [])
              then None else Some r
          | None => None
          end)
  ∧ timers (cleanup now st) = timers st
  ∧ playerSockets (cleanup now st) = playerSockets st
  ∧ nextTimer (cleanup now st) = nextTimer st.
Proof.
  intros Hreach. split_and!; [|
    |done|done].
  - intros k. simpl. rewrite map_lookup_filter.
    destruct (rooms st !! k) as [r|] eqn:Hr; simpl; [|done].
    destruct (isStale now r) eqn:Hs.
    + rewrite option_guard_False by (intros Hn; by apply Hn).
      apply isStale_true in Hs. by rewrite bool_decide_eq_true_2.
    + rewrite option_guard_True by (by intros ?).
      rewrite bool_decide_eq_false_2; [done|].
      intros Hst%isStale_true. congruence.
  - unfold cleanup. simpl. rewrite omap_all_None; [done|].
    intros r (kr & -> & Hin)%list_elem_of_fmap. destruct kr as [k r].
    apply elem_of_map_to_list in Hin.
    apply map_lookup_filter_Some in Hin as [Hr Hs]. simpl in *.
    apply Is_true_true, isStale_true in Hs as [_ Hnil].
    by destruct (reachable_empty_new cfg st Hreach k r Hr Hnil).
Qed.

Lemma cleanup_removes_stale_empty_rooms_witness :
  rooms (cleanup 1800001
           (run config
                [InJoinRoom 0 0 "z"
                   (mkJoin (Some "R9") (Some (NameOther false)) None
                           (Some "X") None);
                 InJoinRoom 5 5 "a" (join "R1" "Alice" "X")]
                initial).1) !! "R9"
  = None.
Proof.
  rewrite (proj1 (cleanup_removes_stale_empty_rooms config 1800001
                    (run config
                         [InJoinRoom 0 0 "z"
                            (mkJoin (Some "R9") (Some (NameOther false)) None
                                    (Some "X") None);
                          InJoinRoom 5 5 "a" (join "R1" "Alice" "X")]
                         initial).1
                    (reachable_run config _ initial
                                   (reachable_initial config)))).
  vm_compute. reflexivity.
Defined.

(** X8: on a server of capacity 2, in every reachable state the listing of
    [/api/rooms] has an entry for a room id exactly when that room is not
    private and has fewer than two players (one, or none); the entry gives
    the id, the number of players, capacity 2 and the creation time.  A
    listed room is stored under its own id and its game is not active; a
    full or private room is never listed. *)
Theorem publicRooms_lists_open_rooms cfg st id :
  maxPlayersPerRoom cfg = 2%nat → reachable cfg st →
  (∀ info,
     publicRooms cfg st !! id = Some info
     ↔ ∃ r, rooms st !! id = Some r
            ∧ private r = false
            ∧ (length (players r) < 2)%nat
            ∧ info = mkRoomInfo id (length (players r)) 2 (created r))
  ∧ (∀ r, rooms st !! id = Some r → is_Some (publicRooms cfg st !! id) →
       rid r = id ∧ gameStatus (gameState r) ≠ active).
Proof.
  intros Hmax Hreach.
  assert (∀ info,
            publicRooms cfg st !! id = Some info
            ↔ ∃ r, rooms st !! id = Some r
                   ∧ private r = false
                   ∧ (length (players r) < 2)%nat
                   ∧ info = mkRoomInfo id (length (players r)) 2 (created r))
    as Hiff.
  { intros info. unfold publicRooms. rewrite map_lookup_imap, Hmax.
    destruct (rooms st !! id) as [r|] eqn:Hr; simpl.
    - split.
      + destruct (private r) eqn:Hpriv; simpl; [discriminate|].
        case_bool_decide as Hlt; [|discriminate]. intros [= <-].
        by exists r.
      + intros (r' & [= <-] & Hpriv & Hlt & ->).
        rewrite Hpriv. simpl. by rewrite bool_decide_eq_true_2.
    - split; [discriminate|]. by intros (r' & ? & _). }
  split; [done|]. intros r Hr [info Hinfo].
  apply Hiff in Hinfo as (r' & Hr' & _ & Hlt & _).
  assert (r' = r) as -> by congruence.
  destruct (reachable_members cfg st Hreach) as [Hm _].
  destruct (Hm _ _ Hr) as [Hkey _ _]. split; [done|].
  intros Hact.
  destruct (reachable_ok cfg st Hreach id r Hr) as [_ _ Hactive _].
  destruct (Hactive Hact); lia.
Qed.

Lemma publicRooms_lists_open_rooms_witness :
  publicRooms config
    (run config
         [InJoinRoom 0 0 "z"
            (mkJoin (Some "R9") (Some (NameOther false)) None (Some "X")
                    None);
          InJoinRoom 5 5 "a" (join "R1" "Alice" "X")]
         initial).1
    !! "R9"
  = Some (mkRoomInfo "R9" 0 2 0).
Proof.
  refine (proj2 (proj1 (publicRooms_lists_open_rooms config
                   (run config
                        [InJoinRoom 0 0 "z"
                           (mkJoin (Some "R9") (Some (NameOther false)) None
                                   (Some "X") None);
                         InJoinRoom 5 5 "a" (join "R1" "Alice" "X")]
                        initial).1
                   "R9" _ _) (mkRoomInfo "R9" 0 2 0)) _).
  - reflexivity.
  - apply reachable_run, reachable_initial.
  - exists (mkRoom "R9" [] (freshGameState waiting) 0 false None).
    split_and!; try reflexivity. simpl. lia.
Defined.

(** ** The [playerReady] and [resetGame] handlers *)

Lemma findPlayer_insert sid (ps : list Player) i p b :
  findPlayer sid ps = Some (i, p) →
  findPlayer sid (<[i := withReady b p]> ps) = Some (i, withReady b p).
Proof.
  unfold findPlayer. intros (Hi & Hp & Hfirst)%list_find_Some.
  apply list_find_Some. split_and!.
  - apply list_lookup_insert_eq. by eapply lookup_lt_Some.
  - done.
  - intros j y Hj Hlt. rewrite list_lookup_insert_ne in Hj by lia.
    by eapply Hfirst.
Qed.

Lemma setRooms_insert_id st room r :
  rooms st !! room = Some r → setRooms (insert room r) st = st.
Proof. intros Hr. destruct st. unfold setRooms. simpl in *. by rewrite insert_id. Qed.

(** X9: [playerReady] by a member flips that player's [ready] flag and
    nothing else in the room (the other players, the game state and the
    timer are as before), and tells the room the new value; a second
    [playerReady] by the same connection restores the server state. *)
Theorem playerReady_toggles sid room st r i p :
  rooms st !! room = Some r →
  findPlayer sid (players r) = Some (i, p) →
  playerReady sid room st
  = (setRooms
       (insert room
          (withPlayers (<[i := withReady (negb (ready p)) p]> (players r)) r))
       st,
     [ToRoom room
        (EvPlayerReadyUpdate sid (negb (ready p))
           (<[i := withReady (negb (ready p)) p]> (players r)))])
  ∧ (∀ j, j ≠ i →
       <[i := withReady (negb (ready p)) p]> (players r) !! j
       = players r !! j)
  ∧ (playerReady sid room (playerReady sid room st).1).1 = st.
Proof.
  intros Hr Hp.
  assert (playerReady sid room st
          = (setRooms
               (insert room
                  (withPlayers
                     (<[i := withReady (negb (ready p)) p]> (players r)) r))
               st,
             [ToRoom room
                (EvPlayerReadyUpdate sid (negb (ready p))
                   (<[i := withReady (negb (ready p)) p]> (players r)))]))
    as Hfirst.
  { unfold playerReady. by rewrite Hr, Hp. }
  split_and!; [done| |].
  - intros j Hj. by apply list_lookup_insert_ne.
  - rewrite Hfirst. simpl. unfold playerReady. simpl.
    rewrite lookup_insert_eq. simpl.
    rewrite (findPlayer_insert _ _ _ _ _ Hp). simpl.
    rewrite negb_involutive, list_insert_insert_eq.
    apply findPlayer_Some in Hp as [Hi _].
    replace (withReady (ready p) (withReady (negb (ready p)) p)) with p
      by by destruct p.
    rewrite (list_insert_id _ _ _ Hi).
    destruct st as [rs ps ts nt]. unfold setRooms. simpl in *.
    rewrite insert_insert_eq. f_equal.
    rewrite insert_id; [done|]. rewrite Hr. by destruct r.
Qed.

Lemma playerReady_toggles_witness :
  (playerReady "b" "R1"
     (playerReady "b" "R1" (run config twoJoin initial).1).1).1
  = (run config twoJoin initial).1.
Proof.
  refine (proj2 (proj2
    (playerReady_toggles "b" "R1" (run config twoJoin initial).1
       (mkRoom "R1"
          [mkPlayer "a" "Alice" defaultAvatar "X" 1 false;
           mkPlayer "b" "Bob" defaultAvatar "O" 2 false]
          (freshGameState active) 1 false (Some 0%nat))
       1%nat (mkPlayer "b" "Bob" defaultAvatar "O" 2 false) _ _)));
    reflexivity.
Defined.

(** X10: [resetGame] by a member puts a new game into the room (empty
    board, turn of X, no winner, no moves), active when the room holds two
    players and waiting otherwise, clears every [ready] flag, keeps the
    players, cancels the room's timer without arming a new one, and tells
    the room [gameReset] with the new game state and the caller's name. *)
Theorem resetGame_by_member sid room st r i p :
  rooms st !! room = Some r →
  findPlayer sid (players r) = Some (i, p) →
  let gs :=
    freshGameState (if bool_decide (length (players r) = 2%nat)
                    then active else waiting) in
  (resetGame sid room st).2 = [ToRoom room (EvGameReset gs (name p))]
  ∧ rooms (resetGame sid room st).1 !! room
    = Some (mkRoom (rid r) (withReady false <$> players r) gs (created r)
                   (private r) None)
  ∧ (∀ h, timeout r = Some h → timers (resetGame sid room st).1 !! h = None)
  ∧ (∀ h, timers st !! h = None → timers (resetGame sid room st).1 !! h = None)
  ∧ nextTimer (resetGame sid room st).1 = nextTimer st
  ∧ playerSockets (resetGame sid room st).1 = playerSockets st.
Proof.
  intros Hr Hp gs. unfold resetGame. rewrite Hr, Hp.
  rewrite (resetRoom_lookup room st r Hr). simpl.
  split_and!; try done.
  - by apply resetRoom_lookup.
  - intros h Hh. by eapply resetRoom_clears_timer.
  - intros h Hh. unfold resetRoom. rewrite Hr. simpl.
    by apply timers_clearRoomTimeout_None.
  - unfold resetRoom. rewrite Hr. simpl. unfold clearRoomTimeout.
    by destruct (timeout r).
  - unfold resetRoom. rewrite Hr. simpl.
    apply playerSockets_clearRoomTimeout.
Qed.

Lemma resetGame_by_member_witness :
  (resetGame "b" "R1" (run config (twoJoin ++ topRow) initial).1).2
  = [ToRoom "R1" (EvGameReset (freshGameState active) "Bob")].
Proof.
  refine (proj1
    (resetGame_by_member "b" "R1" (run config (twoJoin ++ topRow) initial).1
       (mkRoom "R1"
          [mkPlayer "a" "Alice" defaultAvatar "X" 1 false;
           mkPlayer "b" "Bob" defaultAvatar "O" 2 false]
          (mkGameState ["X"; "X"; "X"; "O"; "O"; ""; ""; ""; ""] "X"
                       finished (Some "X") 5)
          1 false None)
       1%nat (mkPlayer "b" "Bob" defaultAvatar "O" 2 false) _ _));
    reflexivity.
Defined.

(** ** What an accepted [joinRoom] does to the room *)

Lemma joinRoom_accepted_state cfg now joined sid room nm sym av pr st st1 out1
    st2 r :
  room ≠ "" → nm ≠ "" → sym ≠ "" →
  (jsLength nm ≤ 20)%nat → (jsLength room ≤ 10)%nat →
  leavePrevious sid st = (st1, out1) →
  ensureRoom room (default false pr) now st1 = (st2, r) →
  (length (players r) < maxPlayersPerRoom cfg)%nat →
  (∀ p, p ∈ players r → symbol p ≠ sym) →
  (joinRoom cfg now joined sid (mkJoin (Some room) (Some (NameString nm)) av (Some sym) pr) st).1
  = (startGame room
       (withPlayers
          (players r
           ++ [mkPlayer sid (trim nm)
                        (if present av then default "" av else defaultAvatar)
                        sym joined false]) r)
       (setPlayerSockets (insert sid room) st2)).1.
Proof.
  intros Hroom Hnm Hsym Hl1 Hl2 Hleave Hens Hfree Hnew.
  apply truthy_true in Hroom, Hnm, Hsym.
  unfold joinRoom. simpl. rewrite Hroom, Hnm, Hsym. simpl.
  rewrite !bool_decide_eq_false_2 by lia. simpl.
  rewrite Hleave, Hens. rewrite bool_decide_eq_false_2 by lia.
  apply symbolTaken_false in Hnew. rewrite Hnew.
  by destruct (startGame _ _ _).
Qed.

(** X11: an accepted [joinRoom] keeps the id, creation time and privacy
    of the room it found (for a room it had to create: the given id, the
    time of this request and the caller's [isPrivate], false by default).
    When the caller is the second player the game becomes active with X to
    move, on the board, winner and move count the room already had (they
    are not cleared), and a new timer is armed for the room; otherwise the
    game state, the room's timer handle and the pending timers stay as they
    were. *)
Theorem joinRoom_starts_game cfg now joined sid room nm sym av pr st st1 out1
    st2 r :
  room ≠ "" → nm ≠ "" → sym ≠ "" →
  (jsLength nm ≤ 20)%nat → (jsLength room ≤ 10)%nat →
  leavePrevious sid st = (st1, out1) →
  ensureRoom room (default false pr) now st1 = (st2, r) →
  (length (players r) < maxPlayersPerRoom cfg)%nat →
  (∀ p, p ∈ players r → symbol p ≠ sym) →
  let st' :=
    (joinRoom cfg now joined sid (mkJoin (Some room) (Some (NameString nm)) av (Some sym) pr)
              st).1 in
  (rooms st1 !! room = None →
   r = mkRoom room [] (freshGameState waiting) now (default false pr) None)
  ∧ (∀ r0, rooms st1 !! room = Some r0 → r = r0)
  ∧ ∃ r',
      rooms st' !! room = Some r'
      ∧ rid r' = rid r ∧ created r' = created r ∧ private r' = private r
      ∧ if bool_decide (length (players r) = 1%nat) then
          gameState r'
          = mkGameState (board (gameState r)) "X" active
                        (winner (gameState r)) (moves (gameState r))
          ∧ timeout r' = Some (nextTimer st2)
          ∧ timers st' = <[nextTimer st2 := room]> (timers st2)
          ∧ nextTimer st' = S (nextTimer st2)
        else
          gameState r' = gameState r
          ∧ timeout r' = timeout r
          ∧ timers st' = timers st2
          ∧ nextTimer st' = nextTimer st2.
Proof.
  intros Hroom Hnm Hsym Hl1 Hl2 Hleave Hens Hfree Hnew st'.
  unfold st'.
  rewrite (joinRoom_accepted_state cfg now joined sid room nm sym av pr st st1 out1
             st2 r) by done.
  split_and!.
  - intros Hnone. unfold ensureRoom in Hens. rewrite Hnone in Hens.
    by injection Hens as _ <-.
  - intros r0 Hr0. unfold ensureRoom in Hens. rewrite Hr0 in Hens.
    by injection Hens as _ <-.
  - rewrite startGame_spec. simpl. rewrite length_app. simpl.
    destruct (decide (length (players r) = 1%nat)) as [Hone|Hmore].
    + rewrite !bool_decide_eq_true_2 by lia. simpl.
      rewrite lookup_insert_eq. eexists. split; [reflexivity|]. done.
    + rewrite !bool_decide_eq_false_2 by lia. simpl.
      rewrite lookup_insert_eq. eexists. split; [reflexivity|]. done.
Qed.

Lemma joinRoom_starts_game_witness :
  ∃ r',
    rooms (joinRoom config 2 2 "b" (join "R1" "Bob" "O")
             (run config [InJoinRoom 1 1 "a" (join "R1" "Alice" "X")]
                  initial).1).1 !! "R1" = Some r'
    ∧ gameStatus (gameState r') = active
    ∧ timeout r' = Some 0%nat.
Proof.
  destruct (joinRoom_starts_game config 2 2 "b" "R1" "Bob" "O" None None
              (run config [InJoinRoom 1 1 "a" (join "R1" "Alice" "X")]
                   initial).1
              (run config [InJoinRoom 1 1 "a" (join "R1" "Alice" "X")]
                   initial).1
              []
              (run config [InJoinRoom 1 1 "a" (join "R1" "Alice" "X")]
                   initial).1
              (mkRoom "R1"
                 [mkPlayer "a" "Alice" defaultAvatar "X" 1 false]
                 (freshGameState waiting) 1 false None))
    as (_ & _ & r' & Hr' & _ & _ & _ & Hgs & Ht & _);
    try done; try (vm_compute; lia).
  - intros p Hp. vm_compute in Hp.
    apply list_elem_of_singleton in Hp as ->. discriminate.
  - exists r'. split; [exact Hr'|]. split; [by rewrite Hgs|exact Ht].
Defined.

(** ** Who may move *)

(** X12: [makeMove] looks the caller up only to see that it is a player
    of the room; it never compares the submitted mark with the caller's own.
    So for two players of the room the same request has the same effect on
    the server whichever of them sends it: both are refused with the same
    message, or both are accepted with the same new state. *)
Theorem makeMove_any_member sid1 sid2 room index sym st r :
  rooms st !! room = Some r → member sid1 r → member sid2 r →
  (makeMove sid1 room index sym st).1 = (makeMove sid2 room index sym st).1
  ∧ ((∃ msg,
        (makeMove sid1 room index sym st).2 = [ToSocket sid1 (EvError msg)]
        ∧ (makeMove sid2 room index sym st).2
          = [ToSocket sid2 (EvError msg)])
     ∨ (∃ e1 e2,
          (makeMove sid1 room index sym st).2 = [ToRoom room e1]
          ∧ (makeMove sid2 room index sym st).2 = [ToRoom room e2])).
Proof.
  intros Hr (i1 & p1 & Hp1)%findPlayer_member
    (i2 & p2 & Hp2)%findPlayer_member.
  unfold makeMove. rewrite Hr, Hp1, Hp2.
  destruct (applyMove (gameState r) index sym); simpl.
  - split; [done|]. left. by eexists.
  - split; [done|]. right. by eexists _, _.
  - split; [done|]. right. by eexists _, _.
Qed.

Lemma makeMove_any_member_witness :
  (makeMove "b" "R1" 0 "X" (run config twoJoin initial).1).1
  = (makeMove "a" "R1" 0 "X" (run config twoJoin initial).1).1.
Proof.
  refine (proj1
    (makeMove_any_member "b" "a" "R1" 0 "X" (run config twoJoin initial).1
       (mkRoom "R1"
          [mkPlayer "a" "Alice" defaultAvatar "X" 1 false;
           mkPlayer "b" "Bob" defaultAvatar "O" 2 false]
          (freshGameState active) 1 false (Some 0%nat))
       _ _ _)).
  - reflexivity.
  - exists (mkPlayer "b" "Bob" defaultAvatar "O" 2 false).
    split; [right; left|reflexivity].
  - exists (mkPlayer "a" "Alice" defaultAvatar "X" 1 false).
    split; [left|reflexivity].
Defined.

(** ** The [chatMessage] handler *)

Lemma jsLength_cons c s : jsLength (String c s) = (units c + jsLength s)%nat.
Proof. reflexivity. Qed.

Lemma jsLength_rev_app s1 s2 :
  jsLength (String.rev_app s1 s2) = (jsLength s1 + jsLength s2)%nat.
Proof.
  revert s2. induction s1 as [|c s1 IH]; intros s2; [done|].
  change (String.rev_app (String c s1) s2)
    with (String.rev_app s1 (String c s2)).
  rewrite IH, !jsLength_cons. lia.
Qed.

Lemma jsLength_rev s : jsLength (String.rev s) = jsLength s.
Proof.
  unfold String.rev. rewrite jsLength_rev_app.
  change (jsLength "") with 0%nat. lia.
Qed.

Lemma trimStart_cons c1 r1 :
  trimStart (String c1 r1)
  = if isSpace1 c1 then trimStart r1
    else
      match r1 with
      | EmptyString => String c1 r1
      | String c2 r2 =>
          if isSpace2 c1 c2 then trimStart r2
          else
            match r2 with
            | EmptyString => String c1 r1
            | String c3 r3 =>
                if isSpace3 c1 c2 c3 then trimStart r3 else String c1 r1
            end
      end.
Proof. reflexivity. Qed.

Lemma trimStartRev_cons c1 r1 :
  trimStartRev (String c1 r1)
  = if isSpace1 c1 then trimStartRev r1
    else
      match r1 with
      | EmptyString => String c1 r1
      | String c2 r2 =>
          if isSpace2 c2 c1 then trimStartRev r2
          else
            match r2 with
            | EmptyString => String c1 r1
            | String c3 r3 =>
                if isSpace3 c3 c2 c1 then trimStartRev r3 else String c1 r1
            end
      end.
Proof. reflexivity. Qed.

Lemma jsLength_trimStart s : (jsLength (trimStart s) ≤ jsLength s)%nat.
Proof.
  remember (String.length s) as n eqn:Hn.
  revert s Hn. induction (lt_wf n) as [n _ IH]. intros s Hn.
  destruct s as [|c1 r1]; [done|].
  rewrite trimStart_cons, jsLength_cons.
  destruct (isSpace1 c1).
  { etrans; [apply (IH (String.length r1)); [subst n; simpl; lia|done]|].
    lia. }
  destruct r1 as [|c2 r2]; [by rewrite jsLength_cons|].
  rewrite !jsLength_cons.
  destruct (isSpace2 c1 c2).
  { etrans; [apply (IH (String.length r2)); [subst n; simpl; lia|done]|].
    lia. }
  destruct r2 as [|c3 r3]; [by rewrite !jsLength_cons|].
  rewrite !jsLength_cons.
  destruct (isSpace3 c1 c2 c3); [|by rewrite !jsLength_cons].
  etrans; [apply (IH (String.length r3)); [subst n; simpl; lia|done]|].
  lia.
Qed.

Lemma jsLength_trimStartRev s : (jsLength (trimStartRev s) ≤ jsLength s)%nat.
Proof.
  remember (String.length s) as n eqn:Hn.
  revert s Hn. induction (lt_wf n) as [n _ IH]. intros s Hn.
  destruct s as [|c1 r1]; [done|].
  rewrite trimStartRev_cons, jsLength_cons.
  destruct (isSpace1 c1).
  { etrans; [apply (IH (String.length r1)); [subst n; simpl; lia|done]|].
    lia. }
  destruct r1 as [|c2 r2]; [by rewrite jsLength_cons|].
  rewrite !jsLength_cons.
  destruct (isSpace2 c2 c1).
  { etrans; [apply (IH (String.length r2)); [subst n; simpl; lia|done]|].
    lia. }
  destruct r2 as [|c3 r3]; [by rewrite !jsLength_cons|].
  rewrite !jsLength_cons.
  destruct (isSpace3 c3 c2 c1); [|by rewrite !jsLength_cons].
  etrans; [apply (IH (String.length r3)); [subst n; simpl; lia|done]|].
  lia.
Qed.

Lemma jsLength_trim s : (jsLength (trim s) ≤ jsLength s)%nat.
Proof.
  unfold trim. rewrite jsLength_rev.
  etrans; [apply jsLength_trimStartRev|].
  rewrite jsLength_rev. apply jsLength_trimStart.
Qed.

(** X13: [chatMessage] never changes the server state.  From a player of
    the room, a message whose trimmed text has at most 100 UTF-16 code
    units (so every message of at most 100, the empty one included, since
    trimming never lengthens a text) is broadcast to the room once, with the
    given id, the sender's name and avatar, the trimmed text and the time. *)
Theorem chatMessage_broadcasts now uuid sid room message st r i p :
  rooms st !! room = Some r →
  findPlayer sid (players r) = Some (i, p) →
  (jsLength (trim message) ≤ 100)%nat →
  chatMessage now uuid sid room message st
  = (st, [ToRoom room
            (EvChatMessage uuid (name p) (avatar p) (trim message) now)])
  ∧ (jsLength (trim message) ≤ jsLength message)%nat
  ∧ (∀ now' uuid' sid' room' message',
       (chatMessage now' uuid' sid' room' message' st).1 = st).
Proof.
  intros Hr Hp Hlen. split_and!.
  - unfold chatMessage. rewrite Hr, Hp.
    by rewrite bool_decide_eq_false_2 by lia.
  - apply jsLength_trim.
  - intros. apply chatMessage_state.
Qed.

(** The message is: U+00A0, space, [hello], U+3000, space. *)
Lemma chatMessage_broadcasts_witness :
  chatMessage 7 "id-1" "a" "R1"
    (String (ascii_of_nat 194) (String (ascii_of_nat 160)
       (String.append " hello"
          (String (ascii_of_nat 227) (String (ascii_of_nat 128)
             (String (ascii_of_nat 128) " "))))))
    (run config twoJoin initial).1
  = ((run config twoJoin initial).1,
     [ToRoom "R1" (EvChatMessage "id-1" "Alice" defaultAvatar "hello" 7)]).
Proof.
  refine (proj1
    (chatMessage_broadcasts 7 "id-1" "a" "R1"
       (String (ascii_of_nat 194) (String (ascii_of_nat 160)
          (String.append " hello"
             (String (ascii_of_nat 227) (String (ascii_of_nat 128)
                (String (ascii_of_nat 128) " "))))))
       (run config twoJoin initial).1
       (mkRoom "R1"
          [mkPlayer "a" "Alice" defaultAvatar "X" 1 false;
           mkPlayer "b" "Bob" defaultAvatar "O" 2 false]
          (freshGameState active) 1 false (Some 0%nat))
       0%nat (mkPlayer "a" "Alice" defaultAvatar "X" 1 false) _ _ _));
    try reflexivity.
  vm_compute. lia.
Defined.

(** ** The client's move logic *)

Lemma canMakeMove_true c :
  canMakeMove c = true
  ↔ ∃ gs, c_gameState c = Some gs ∧ gameStatus gs = active
          ∧ currentTurn gs = c_symbol c.
Proof.
  unfold canMakeMove. destruct (c_gameState c) as [gs|].
  - destruct (decide (gameStatus gs = active)) as [Hs|Hs].
    + rewrite (bool_decide_eq_false_2 (gameStatus gs ≠ active))
        by (by intros ?).
      destruct (decide (currentTurn gs = c_symbol c)) as [Ht|Ht].
      * rewrite bool_decide_eq_false_2 by (by intros ?).
        split; [by exists gs|done].
      * rewrite bool_decide_eq_true_2 by done.
        split; [discriminate|]. by intros (? & [= <-] & _ & ?).
    + rewrite bool_decide_eq_true_2 by done.
      split; [discriminate|]. by intros (? & [= <-] & ? & _).
  - split; [discriminate|]. by intros (? & ? & _).
Qed.

Lemma clientMakeMove_Some c index payload :
  clientMakeMove c index = Some payload
  ↔ payload = (c_roomId c, index, c_symbol c)
    ∧ ∃ gs, c_gameState c = Some gs ∧ gameStatus gs = active
            ∧ currentTurn gs = c_symbol c
            ∧ cellAt (board gs) index = Some "".
Proof.
  unfold clientMakeMove. destruct (canMakeMove c) eqn:Hcan; simpl.
  - apply canMakeMove_true in Hcan as (gs & Hgs & Hs & Ht). rewrite Hgs.
    destruct (decide (cellAt (board gs) index = Some "")) as [Hc|Hc].
    + rewrite bool_decide_eq_false_2 by (by intros ?). split.
      * intros [= <-]. split; [done|]. by exists gs.
      * by intros [-> _].
    + rewrite bool_decide_eq_true_2 by done. split; [discriminate|].
      by intros (_ & ? & [= <-] & _ & _ & ?).
  - split; [discriminate|]. intros (_ & gs & Hgs & Hs & Ht & _).
    assert (canMakeMove c = true) by (apply canMakeMove_true; by exists gs).
    congruence.
Qed.

(** X14: the client and the server apply the same test to a move.  For a
    client that is a player of the room and holds the room's current game
    state, clicking a cell sends a [makeMove] request exactly when the
    server accepts that request (and broadcasts it to the room): the client
    never sends a move the server refuses, and holds back no move the
    server would accept for its mark. *)
Theorem client_move_accepted c index sid st r :
  rooms st !! c_roomId c = Some r → member sid r →
  c_gameState c = Some (gameState r) →
  clientMakeMove c index = Some (c_roomId c, index, c_symbol c)
  ↔ ∃ e, (makeMove sid (c_roomId c) index (c_symbol c) st).2
         = [ToRoom (c_roomId c) e].
Proof.
  intros Hr (i & p & Hp)%findPlayer_member Hgs.
  rewrite clientMakeMove_Some, Hgs. unfold makeMove. rewrite Hr, Hp. split.
  - intros (_ & gs & [= <-] & Hs & Ht & Hc).
    rewrite (applyMove_accepted _ _ _ Hs Ht Hc).
    destruct (checkWinner _); simpl; by eexists.
  - intros [e He]. split; [done|]. exists (gameState r).
    destruct (applyMove_not_error (gameState r) index (c_symbol c))
      as (Hs & Ht & Hc); [|done].
    intros msg Hm. rewrite Hm in He. simpl in He. discriminate.
Qed.

Lemma client_move_accepted_witness :
  ∃ e, (makeMove "a" "R1" 4 "X" (run config twoJoin initial).1).2
       = [ToRoom "R1" e].
Proof.
  refine (proj1
    (client_move_accepted
       (mkClient (Some (freshGameState active)) "X" "R1") 4 "a"
       (run config twoJoin initial).1
       (mkRoom "R1"
          [mkPlayer "a" "Alice" defaultAvatar "X" 1 false;
           mkPlayer "b" "Bob" defaultAvatar "O" 2 false]
          (freshGameState active) 1 false (Some 0%nat))
       _ _ _) _).
  - reflexivity.
  - exists (mkPlayer "a" "Alice" defaultAvatar "X" 1 false).
    split; [left|reflexivity].
  - reflexivity.
  - reflexivity.
Defined.

Lemma firstPattern_firstWinner b ps w :
  firstWinner b ps = Some w →
  ∃ p, firstPattern b ps = Some p ∧ p ∈ ps ∧ lineWinner b p = Some w.
Proof.
  induction ps as [|q ps IH]; simpl; [discriminate|].
  destruct (lineWinner b q) as [x|] eqn:Hq.
  - intros [= ->]. exists q. split_and!; [done|left|done].
  - intros (p & Hp & Hin & Hl)%IH. exists p. split_and!; [done|by right|done].
Qed.

(** X15: after a move that decides the game for a mark, the client that
    holds the resulting game state highlights exactly the three cells of
    one of the eight lines, and all three hold the winner stored in the
    game state; after a tie it highlights nothing. *)
Theorem highlight_marks_winning_line gs index sym gs' w roomId mySymbol :
  applyMove gs index sym = MoveDecided gs' w →
  (w = "tie" →
   highlightWinningCells (mkClient (Some gs') mySymbol roomId) = [])
  ∧ (w ≠ "tie" →
     ∃ p, p ∈ winPatterns
          ∧ highlightWinningCells (mkClient (Some gs') mySymbol roomId)
            = [p.1.1; p.1.2; p.2]
          ∧ line w (board gs') p
          ∧ winner gs' = Some w).
Proof.
  intros (_ & _ & _ & Hw & ->)%applyMove_decided.
  unfold highlightWinningCells.
  cbn [c_gameState winner board finish setCell] in *.
  pose proof (checkWinner_truthy _ _ Hw) as Hne%truthy_true. rewrite Hne.
  split.
  - intros ->. by rewrite bool_decide_eq_true_2.
  - intros Htie. rewrite bool_decide_eq_false_2 by done.
    cbn [negb orb].
    assert (firstWinner (<[Z.to_nat index := sym]> (board gs)) winPatterns
            = Some w) as Hf.
    { unfold checkWinner in Hw.
      destruct (firstWinner _ winPatterns); [done|].
      destruct (forallb _ _); [|discriminate]. congruence. }
    destruct (firstPattern_firstWinner _ _ _ Hf) as (p & Hp & Hin & Hl).
    exists p. rewrite Hp. apply lineWinner_Some in Hl as [_ Hl].
    by destruct p as [[i j] k].
Qed.

Lemma highlight_marks_winning_line_witness :
  ∃ p, p ∈ winPatterns
       ∧ highlightWinningCells
           (mkClient
              (Some (mkGameState ["X"; "X"; "X"; "O"; "O"; ""; ""; ""; ""]
                                 "X" finished (Some "X") 5))
              "O" "R1")
         = [p.1.1; p.1.2; p.2]
       ∧ line "X" ["X"; "X"; "X"; "O"; "O"; ""; ""; ""; ""] p
       ∧ winner (mkGameState ["X"; "X"; "X"; "O"; "O"; ""; ""; ""; ""]
                             "X" finished (Some "X") 5)
         = Some "X".
Proof.
  refine (proj2 (highlight_marks_winning_line
                   (mkGameState ["X"; "X"; ""; "O"; "O"; ""; ""; ""; ""] "X"
                                active None 4)
                   2 "X"
                   (mkGameState ["X"; "X"; "X"; "O"; "O"; ""; ""; ""; ""]
                                "X" finished (Some "X") 5)
                   "X" "R1" "O" eq_refl) _).
  discriminate.
Defined.

(** ** More on leaving a room *)

Lemma filter_non_member sid r :
  ¬ member sid r → filter (λ p, pid p ≠ sid) (players r) = players r.
Proof.
  intros Hm. unfold member in Hm.
  induction (players r) as [|p ps IH]; [done|].
  rewrite filter_cons_True.
  - f_equal. apply IH. intros (q & Hq & Hpid). apply Hm. exists q.
    split; [by right|done].
  - intros Hpid. apply Hm. exists p. split; [left|done].
Qed.

(** X16: [leaveRoom] does not check that the connection is a player of
    the room.  Called for a connection that is not, on a room with players
    and an active game, it removes nobody and still ends the game and tells
    the room [playerLeft] and [roomUpdate] with the unchanged players; this
    is what [disconnect] does when [playerSockets] still names a room the
    connection is no longer in. *)
Theorem leaveRoom_non_member_ends_game sid room st r :
  rooms st !! room = Some r → ¬ member sid r → players r ≠ [] →
  gameStatus (gameState r) = active →
  leaveRoom sid room st
  = (setRooms
       (insert room (withGameState (withStatus finished (gameState r)) r))
       st,
     [ToRoom room (EvPlayerLeft (withStatus finished (gameState r))
                                (players r));
      ToRoom room (EvRoomUpdate (players r)
                                (withStatus finished (gameState r)) room)])
  ∧ (playerSockets st !! sid = Some room → room ≠ "" →
     (disconnect sid st).2 = (leaveRoom sid room st).2).
Proof.
  intros Hr Hm Hne Hs. split.
  - unfold leaveRoom. rewrite Hr, (filter_non_member _ _ Hm).
    rewrite bool_decide_eq_false_2 by (by destruct (players r)).
    simpl. rewrite bool_decide_eq_true_2 by done.
    by destruct r.
  - intros Hps Htruthy%truthy_true. unfold disconnect.
    rewrite Hps, Htruthy. by destruct (leaveRoom sid room st).
Qed.

Lemma leaveRoom_non_member_ends_game_witness :
  (disconnect "c"
     (run config
          (twoJoin
           ++ [InJoinRoom 3 3 "c" (join "R2" "Carol" "X");
               InJoinRoom 4 4 "c" (join "R1" "Carol" "X");
               InJoinRoom 5 5 "d" (join "R2" "Dan" "X");
               InJoinRoom 6 6 "e" (join "R2" "Eve" "O")])
          initial).1).2
  = (leaveRoom "c" "R2"
       (run config
            (twoJoin
             ++ [InJoinRoom 3 3 "c" (join "R2" "Carol" "X");
                 InJoinRoom 4 4 "c" (join "R1" "Carol" "X");
                 InJoinRoom 5 5 "d" (join "R2" "Dan" "X");
                 InJoinRoom 6 6 "e" (join "R2" "Eve" "O")])
            initial).1).2.
Proof.
  refine (proj2
    (leaveRoom_non_member_ends_game "c" "R2" _
       (mkRoom "R2"
          [mkPlayer "d" "Dan" defaultAvatar "X" 5 false;
           mkPlayer "e" "Eve" defaultAvatar "O" 6 false]
          (freshGameState active) 5 false (Some 1%nat))
       _ _ _ _) _ _).
  - vm_compute. reflexivity.
  - intros (p & Hp & Hpid). simpl in Hp.
    apply elem_of_cons in Hp as [->|Hp]; [discriminate|].
    apply list_elem_of_singleton in Hp as ->. discriminate.
  - discriminate.
  - reflexivity.
  - vm_compute. reflexivity.
  - discriminate.
Defined.

(** X17: when [leaveRoom] removes the last player of a room, the room is
    deleted without any event, and the timer recorded in the room, if there
    is one, is cancelled; the connection map is not touched. *)
Theorem leaveRoom_last_player_is_silent sid room st r :
  rooms st !! room = Some r →
  filter (λ p, pid p ≠ sid) (players r) = [] →
  (leaveRoom sid room st).2 = []
  ∧ rooms (leaveRoom sid room st).1 = delete room (rooms st)
  ∧ (∀ h, timeout r = Some h → timers (leaveRoom sid room st).1 !! h = None)
  ∧ playerSockets (leaveRoom sid room st).1 = playerSockets st.
Proof.
  intros Hr Hrest. unfold leaveRoom. rewrite Hr, Hrest. simpl.
  split_and!; [done| | |].
  - by rewrite rooms_clearRoomTimeout.
  - intros h Hh. by apply timers_clearRoomTimeout_own.
  - apply playerSockets_clearRoomTimeout.
Qed.

Lemma leaveRoom_last_player_is_silent_witness :
  (leaveRoom "a" "R1"
     (run config [InJoinRoom 1 1 "a" (join "R1" "Alice" "X")] initial).1).2
  = [].
Proof.
  refine (proj1
    (leaveRoom_last_player_is_silent "a" "R1"
       (run config [InJoinRoom 1 1 "a" (join "R1" "Alice" "X")] initial).1
       (mkRoom "R1" [mkPlayer "a" "Alice" defaultAvatar "X" 1 false]
               (freshGameState waiting) 1 false None) _ _));
    reflexivity.
Defined.

(** ** The shape of reachable rooms *)

(** X18: on a server of capacity at most 2, in every reachable state a
    room whose game is active has exactly two players, on two different
    connections and with two different marks. *)
Theorem active_room_has_two_players cfg st room r :
  (maxPlayersPerRoom cfg ≤ 2)%nat → reachable cfg st →
  rooms st !! room = Some r → gameStatus (gameState r) = active →
  ∃ p q, players r = [p; q] ∧ pid p ≠ pid q ∧ symbol p ≠ symbol q.
Proof.
  intros Hmax Hreach Hr Hs.
  destruct (reachable_ok cfg st Hreach room r Hr) as [_ Hsym Hact _].
  destruct (reachable_members cfg st Hreach) as [Hm _].
  destruct (Hm _ _ Hr) as [_ _ Hnd].
  destruct (Hact Hs) as [Hlen|?]; [|lia].
  unfold pids in Hnd.
  destruct (players r) as [|p [|q [|? ?]]]; try discriminate.
  exists p, q. simpl in *.
  apply NoDup_cons in Hnd as [Hp _]. apply NoDup_cons in Hsym as [Hsp _].
  rewrite list_elem_of_singleton in Hp, Hsp. done.
Qed.

Lemma active_room_has_two_players_witness :
  ∃ p q,
    [mkPlayer "a" "Alice" defaultAvatar "X" 1 false;
     mkPlayer "b" "Bob" defaultAvatar "O" 2 false] = [p; q]
    ∧ pid p ≠ pid q ∧ symbol p ≠ symbol q.
Proof.
  refine (active_room_has_two_players config (run config twoJoin initial).1
            "R1"
            (mkRoom "R1"
               [mkPlayer "a" "Alice" defaultAvatar "X" 1 false;
                mkPlayer "b" "Bob" defaultAvatar "O" 2 false]
               (freshGameState active) 1 false (Some 0%nat))
            _ _ _ _).
  - simpl. lia.
  - apply reachable_run, reachable_initial.
  - reflexivity.
  - reflexivity.
Defined.

(** X19: in every reachable state the board of each room has nine cells,
    each empty or holding ["X"] or ["O"], and [currentTurn] is ["X"] or
    ["O"]. *)
Theorem reachable_board_shape cfg st room r :
  reachable cfg st → rooms st !! room = Some r →
  length (board (gameState r)) = 9%nat
  ∧ (∀ i cell, board (gameState r) !! i = Some cell →
       cell = "" ∨ cell = "X" ∨ cell = "O")
  ∧ (currentTurn (gameState r) = "X" ∨ currentTurn (gameState r) = "O").
Proof.
  intros Hreach Hr.
  destruct (reachable_ok cfg st Hreach room r Hr)
    as [_ _ _ (Hturn & Hcells & Hlen)].
  split_and!; [done| |done].
  intros i cell Hi. rewrite Forall_lookup in Hcells.
  by apply (Hcells i).
Qed.

Lemma reachable_board_shape_witness :
  ∃ r,
    rooms (run config (twoJoin ++ topRow) initial).1 !! "R1" = Some r
    ∧ length (board (gameState r)) = 9%nat.
Proof.
  eexists. split; [vm_compute; reflexivity|].
  refine (proj1 (reachable_board_shape config
                   (run config (twoJoin ++ topRow) initial).1 "R1" _ _ _)).
  - apply reachable_run, reachable_initial.
  - vm_compute. reflexivity.
Defined.

(** ** A name that is not a string *)

(** X20: [joinRoom] with a [name] that is truthy but not a string (and
    whose [length] does not compare greater than 20) passes the validation;
    when the room has a free place and the mark is not taken, the handler
    has by then left the caller's previous room, created the room if it did
    not exist and recorded the room for the connection, and then fails on
    [name.trim()]: the caller is answered ['Failed to join room'], nobody
    is added to the room (a room just created stays without players), and
    nothing but the events of leaving the previous room is broadcast. *)
Theorem joinRoom_name_not_string cfg now joined sid room sym av pr st st1
    out1 st2 r :
  room ≠ "" → sym ≠ "" → (jsLength room ≤ 10)%nat →
  leavePrevious sid st = (st1, out1) →
  ensureRoom room (default false pr) now st1 = (st2, r) →
  (length (players r) < maxPlayersPerRoom cfg)%nat →
  (∀ p, p ∈ players r → symbol p ≠ sym) →
  joinRoom cfg now joined sid
           (mkJoin (Some room) (Some (NameOther false)) av (Some sym) pr) st
  = (setPlayerSockets (insert sid room) st2,
     out1 ++ [ToSocket sid (EvError "Failed to join room")])
  ∧ rooms (setPlayerSockets (insert sid room) st2) !! room = Some r
  ∧ (rooms st1 !! room = None → players r = [])
  ∧ playerSockets (setPlayerSockets (insert sid room) st2) !! sid
    = Some room.
Proof.
  intros Hroom Hsym Hlen Hleave Hens Hfree Hnew.
  apply truthy_true in Hroom, Hsym. split_and!.
  - unfold joinRoom. simpl. rewrite Hroom, Hsym. simpl.
    rewrite bool_decide_eq_false_2 by lia.
    rewrite Hleave, Hens. rewrite bool_decide_eq_false_2 by lia.
    apply symbolTaken_false in Hnew. by rewrite Hnew.
  - simpl. unfold ensureRoom in Hens.
    destruct (rooms st1 !! room) as [r0|] eqn:Hr0.
    + by injection Hens as <- <-.
    + injection Hens as <- <-. simpl. apply lookup_insert_eq.
  - intros Hnone. unfold ensureRoom in Hens. rewrite Hnone in Hens.
    by injection Hens as _ <-.
  - simpl. apply lookup_insert_eq.
Qed.

Lemma joinRoom_name_not_string_witness :
  joinRoom config 0 0 "z"
           (mkJoin (Some "R9") (Some (NameOther false)) None (Some "X") None)
           initial
  = (setPlayerSockets (insert "z" "R9")
       (ensureRoom "R9" false 0 initial).1,
     [ToSocket "z" (EvError "Failed to join room")]).
Proof.
  refine (proj1 (joinRoom_name_not_string config 0 0 "z" "R9" "X" None None
                   initial initial []
                   (ensureRoom "R9" false 0 initial).1
                   (ensureRoom "R9" false 0 initial).2
                   _ _ _ _ _ _ _));
    try done; try (vm_compute; lia).
  intros p Hp. vm_compute in Hp. by apply elem_of_nil in Hp.
Defined.
